(** * Deduplicated-insert worker: a shallow embedding of [src/index.ts]

    The worker receives a batch of messages, removes exact duplicates
    inside the batch, asks an embedding provider for one vector per
    surviving message, and then, message by message, looks up the nearest
    stored neighbour in a pgvector table and inserts the message when the
    neighbour's similarity score lies below the batch threshold.

    Layout of the development:
    - [Number]: the values of JavaScript's [number] that the worker handles;
    - the data model of [index.ts] (its four interfaces);
    - a state-and-exception monad for the [await]ed calls, a type class for
      the two collaborators ([env.AI] and the [pg] client);
    - [processBatch] and [fetch], written after the source;
    - [Pg]: a reference store that interprets the two SQL statements of the
      source, with scripted provider replies and scripted store faults;
    - the theorems. *)

From Stdlib Require Import QArith ZArith Lia.
From stdpp Require Import gmap strings list.

Local Open Scope Z_scope.
Local Open Scope string_scope.
Local Open Scope list_scope.

(** ** JavaScript numbers

    A finite double is represented by the rational it denotes; the two
    infinities and NaN are separate values.  Rounding and the sign of zero
    are not represented: the worker only compares scores, subtracts a
    distance from one (on the SQL side) and divides two message counts. *)
Module Number.

Inductive number : Type :=
| Fin (q : Q)
| PInf
| NInf
| NaN.

Definition Qltb (a b : Q) : bool := negb (Qle_bool b a).

(** JavaScript's [x < y]: false as soon as one side is NaN. *)
Definition ltb (x y : number) : bool :=
  match x, y with
  | NaN, _ | _, NaN => false
  | Fin a, Fin b => Qltb a b
  | NInf, NInf => false
  | NInf, _ => true
  | _, PInf => match x with PInf => false | _ => true end
  | _, _ => false
  end.

(** JavaScript's [x >= y]; this is not the negation of [ltb] on NaN. *)
Definition geb (x y : number) : bool :=
  match x, y with
  | NaN, _ | _, NaN => false
  | _, _ => negb (ltb x y)
  end.

(** JavaScript's [x === y] on numbers. *)
Definition eqb (x y : number) : bool :=
  match x, y with
  | Fin a, Fin b => Qeq_bool a b
  | PInf, PInf | NInf, NInf => true
  | _, _ => false
  end.

(** JavaScript's [x / y]. *)
Definition div (x y : number) : number :=
  match x, y with
  | NaN, _ | _, NaN => NaN
  | Fin a, Fin b =>
      if Qeq_bool b 0 then
        if Qeq_bool a 0 then NaN else if Qltb a 0 then NInf else PInf
      else Fin (a / b)
  | Fin _, _ => Fin 0
  | PInf, Fin b => if Qltb b 0 then NInf else PInf
  | NInf, Fin b => if Qltb b 0 then PInf else NInf
  | _, _ => NaN
  end.

(** [x - y], as computed by the store for [1 - (embedding <=> $n)]. *)
Definition sub (x y : number) : number :=
  match x, y with
  | NaN, _ | _, NaN => NaN
  | Fin a, Fin b => Fin (a - b)
  | Fin _, PInf => NInf
  | Fin _, NInf => PInf
  | PInf, PInf | NInf, NInf => NaN
  | PInf, _ => PInf
  | NInf, _ => NInf
  end.

Definition of_Z (z : Z) : number := Fin (inject_Z z).

(** The order PostgreSQL sorts floats by ([ORDER BY ... ASC]): NaN is
    larger than every other value and equal to itself. *)
Definition pg_leb (x y : number) : bool :=
  match x, y with
  | _, NaN => true
  | NaN, _ => false
  | _, _ => negb (ltb y x)
  end.

End Number.
Export Number.

(** ** Data model (the interfaces of [index.ts]) *)

Record Message : Type := {
  message_id : string;
  timestamp : string;
  content : string;
  platform_name : string;
  platform_user_id : string;
  platform_message_id : string;
  platform_message_url : string;
}.

(** [filter_by?: string[]]: [None] is the absent property. *)
Record BatchRequest : Type := {
  table_name : string;
  job_id : string;
  topic : string;
  industry : string;
  subindustry : string;
  similarity_search_score_threshold : number;
  filter_by : option (list string);
  messages : list Message;
}.

Record Stats : Type := {
  received : Z;
  inserted : Z;
  dropped : Z;
  insertion_rate : number;
}.

Record NonDuplicateMessage : Type := {
  nd_message_id : string;
  nd_content : string;
}.

Record BatchData : Type := {
  data_table_name : string;
  data_job_id : string;
  data_topic : string;
  data_industry : string;
  data_subindustry : string;
  data_similarity_search_score_threshold : number;
  data_filter_by : list string;
  stats : Stats;
  non_duplicate_messages : list NonDuplicateMessage;
}.

Record BatchResponse : Type := {
  status : string;
  data : BatchData;
  message : string;
}.

(** [interface Env], without the [AI] binding, which is an effect and
    lives in the [Runtime] class below. *)
Record Env : Type := {
  HYPERDRIVE_connectionString : string;
  DEDUP_AUTH_TOKEN : string;
}.

(** An embedding is the [number[]] the provider returns for one text. *)
Definition embedding : Type := list number.

(** JavaScript truthiness of a string: every string but the empty one. *)
Definition truthy (s : string) : bool := negb (String.eqb s "").

(** ** Exact-match filter ([index.ts], lines 167-176)

    [contentSet] is the [Set] of the source, [uniqueMessages] the array the
    loop pushes to. *)
Fixpoint removeExactDuplicatesFrom (contentSet : gset string)
    (uniqueMessages : list Message) (msgs : list Message) : list Message :=
  match msgs with
  | [] => uniqueMessages
  | msg :: rest =>
      if decide (content msg ∈ contentSet)
      then removeExactDuplicatesFrom contentSet uniqueMessages rest
      else removeExactDuplicatesFrom ({[content msg]} ∪ contentSet)
             (uniqueMessages ++ [msg]) rest
  end.

Definition removeExactDuplicates (msgs : list Message) : list Message :=
  removeExactDuplicatesFrom ∅ [] msgs.

(** ** Awaited calls: state and exceptions

    Every [await] of the source either resolves with a value or rejects
    with an error, and may change the outside world [W] (the store, the
    provider).  A computation threads the world and ends in a value, in a
    thrown error, or, for the one loop that is not structural, out of fuel. *)

Inductive exn : Type :=
| ExternalError (msg : string)
| TypeError (msg : string).

Inductive reply (A : Type) : Type :=
| Resolved (a : A)
| Rejected (e : exn).
Arguments Resolved {A} a.
Arguments Rejected {A} e.

Inductive outcome (A : Type) : Type :=
| Ok (a : A)
| Throw (e : exn)
| OutOfFuel.
Arguments Ok {A} a.
Arguments Throw {A} e.
Arguments OutOfFuel {A}.

Definition M (W A : Type) : Type := W -> outcome A * W.

Definition ret {W A} (a : A) : M W A := fun w => (Ok a, w).

Definition throw {W A} (e : exn) : M W A := fun w => (Throw e, w).

Definition bind {W A B} (m : M W A) (k : A -> M W B) : M W B :=
  fun w =>
    match m w with
    | (Ok a, w') => k a w'
    | (Throw e, w') => (Throw e, w')
    | (OutOfFuel, w') => (OutOfFuel, w')
    end.

Definition await {W A} (p : W -> reply A * W) : M W A :=
  fun w =>
    match p w with
    | (Resolved a, w') => (Ok a, w')
    | (Rejected e, w') => (Throw e, w')
    end.

(** [try { body } catch (e) { handler e }]. *)
Definition tryCatch {W A} (body : M W A) (handler : exn -> M W A) : M W A :=
  fun w =>
    match body w with
    | (Throw e, w') => handler e w'
    | r => r
    end.

(** [try { body } finally { fin }]: [fin] runs whatever [body] did, and an
    error thrown by [fin] replaces the outcome of [body]. *)
Definition tryFinally {W A} (body : M W A) (fin : M W unit) : M W A :=
  fun w =>
    match body w with
    | (r, w') =>
        match fin w' with
        | (Ok _, w'') => (r, w'')
        | (Throw e, w'') => (Throw e, w'')
        | (OutOfFuel, w'') => (OutOfFuel, w'')
        end
    end.

Notation "'do' x <~ m ; k" := (bind m (fun x => k))
  (at level 10, x name, m at level 100, k at level 200).

(** ** What goes over the wire to the store *)

(** A query parameter.  The vector literal [`[${embedding.join(",")}]`] that
    the source sends is represented by the vector it denotes. *)
Inductive SqlValue : Type :=
| VText (s : string)
| VNumber (n : number)
| VVector (v : embedding).

(** One entry of [whereConditions]: the text [column = $placeholder]. *)
Record Condition : Type := {
  column : string;
  placeholder : nat;
}.

(** The two statements of the source.  [SimilarityQuery] is

    [SELECT content, 1 - (embedding <=> $vector::vector) as similarity_score
     FROM table WHERE c1 AND ... AND cn
     ORDER BY embedding <=> $vector::vector LIMIT 1]

    (no [WHERE] when there is no condition), [InsertQuery] is the
    [INSERT INTO table (job_id, message_id, timestamp, topic, industry,
    subindustry, content, embedding, similarity_search_score, platform_name,
    platform_user_id, platform_message_id, platform_message_url)
    VALUES ($1, ..., $13)].  Both carry their parameter array. *)
Inductive Query : Type :=
| SimilarityQuery (table : string) (whereConditions : list Condition)
    (vector : nat) (queryParams : list SqlValue)
| InsertQuery (table : string) (values : list SqlValue).

(** A row of [result.rows] for the similarity query. *)
Record Row : Type := {
  row_content : string;
  similarity_score : number;
}.

(** The collaborators: [env.AI.run] and the [pg] client. *)
Class Runtime (W : Type) : Type := {
  AI_run : string -> list string -> W -> reply (list embedding) * W;
  Client_connect : string -> W -> reply unit * W;
  Client_query : Query -> W -> reply (list Row) * W;
  Client_end : W -> reply unit * W;
}.

(** ** The filter predicate ([index.ts], lines 207-231) *)

Record QueryBuilder : Type := {
  whereConditions : list Condition;
  queryParams : list SqlValue;
  paramIndex : nat;
}.

Definition pushCondition (b : QueryBuilder) (col value : string) : QueryBuilder :=
  {| whereConditions :=
       whereConditions b ++ [{| column := col; placeholder := paramIndex b |}];
     queryParams := queryParams b ++ [VText value];
     paramIndex := S (paramIndex b) |}.

(** The body of [filter_by.forEach]. *)
Definition addFilterField (data : BatchRequest) (b : QueryBuilder)
    (field : string) : QueryBuilder :=
  if String.eqb field "topic" && truthy (topic data)
  then pushCondition b "topic" (topic data)
  else if String.eqb field "industry" && truthy (industry data)
  then pushCondition b "industry" (industry data)
  else if String.eqb field "subindustry" && truthy (subindustry data)
  then pushCondition b "subindustry" (subindustry data)
  else if String.eqb field "job_id" && truthy (job_id data)
  then pushCondition b "job_id" (job_id data)
  else b.

Definition buildConditions (data : BatchRequest) (filter_by : list string)
    : QueryBuilder :=
  fold_left (addFilterField data) filter_by
    {| whereConditions := []; queryParams := []; paramIndex := 1 |}.

Definition similarityQuery (data : BatchRequest) (filter_by : list string)
    (formattedEmbedding : embedding) : Query :=
  let b := buildConditions data filter_by in
  SimilarityQuery (table_name data) (whereConditions b) (paramIndex b)
    (queryParams b ++ [VVector formattedEmbedding]).

Definition insertQuery (data : BatchRequest) (message : Message)
    (formattedEmbedding : embedding) (similarityScore : number) : Query :=
  InsertQuery (table_name data)
    [ VText (job_id data);
      VText (message_id message);
      VText (timestamp message);
      VText (topic data);
      VText (industry data);
      VText (subindustry data);
      VText (content message);
      VVector formattedEmbedding;
      VNumber similarityScore;
      VText (platform_name message);
      VText (platform_user_id message);
      VText (platform_message_id message);
      VText (platform_message_url message) ].

(** [let similarityScore = 0; if (rows.length > 0) similarityScore = rows[0]...] *)
Definition similarityScoreOf (rows : list Row) : number :=
  match rows with
  | [] => Fin 0
  | r :: _ => similarity_score r
  end.

(** The threshold test: [similarityScore < data.similarity_search_score_threshold]. *)
Definition belowThreshold (similarityScore : number) (data : BatchRequest) : bool :=
  Number.ltb similarityScore (similarity_search_score_threshold data).

Definition embeddingBatchSize : nat := 100.

(** [array.slice(i, j)] for [i <= j]. *)
Definition slice {A} (i j : nat) (l : list A) : list A :=
  take (j - i) (drop i l).

Definition projectMessage (msg : Message) : NonDuplicateMessage :=
  {| nd_message_id := message_id msg; nd_content := content msg |}.

(** ** [processBatch] ([index.ts], lines 147-338)

    [console.log] calls are left out; a [catch] block that only logs and
    rethrows is the identity and is left out as well. *)
Section Worker.

Context {W : Type} `{Runtime W}.

(** The mutable state of the two loops: the array [nonDuplicateMessages]
    and the counter [stats.dropped]. *)
Record LoopState : Type := {
  nonDuplicateMessages : list Message;
  stats_dropped : Z;
}.

(** The body of the inner loop (lines 202-286) for [message = batch[j]]. *)
Definition processMessage (data : BatchRequest) (filter_by : list string)
    (embeddings : list embedding) (j : nat) (message : Message)
    (st : LoopState) : M W LoopState :=
  match embeddings !! j with
  | None => throw (TypeError "Cannot read properties of undefined (reading 'join')")
  | Some embedding =>
      let formattedEmbedding := embedding in
      do rows <~ await (Client_query (similarityQuery data filter_by formattedEmbedding));
      let similarityScore := similarityScoreOf rows in
      if belowThreshold similarityScore data then
        do _ <~ await (Client_query
                         (insertQuery data message formattedEmbedding similarityScore));
        ret {| nonDuplicateMessages := nonDuplicateMessages st ++ [message];
               stats_dropped := stats_dropped st |}
      else
        ret {| nonDuplicateMessages := nonDuplicateMessages st;
               stats_dropped := stats_dropped st + 1 |}
  end.

(** [for (let j = 0; j < batch.length; j++)], entered at index [j] with
    [rest] the messages [batch[j]], [batch[j+1]], ... still to process. *)
Fixpoint processMessages (data : BatchRequest) (filter_by : list string)
    (embeddings : list embedding) (j : nat) (rest : list Message)
    (st : LoopState) : M W LoopState :=
  match rest with
  | [] => ret st
  | message :: rest' =>
      do st' <~ processMessage data filter_by embeddings j message st;
      processMessages data filter_by embeddings (S j) rest' st'
  end.

(** [for (let i = 0; i < uniqueMessages.length; i += embeddingBatchSize)],
    entered at index [i]. *)
Fixpoint embeddingBatches (fuel : nat) (data : BatchRequest)
    (filter_by : list string) (uniqueMessages : list Message) (i : nat)
    (st : LoopState) : M W LoopState :=
  if decide (i < length uniqueMessages)%nat then
    match fuel with
    | O => fun w => (OutOfFuel, w)
    | S fuel' =>
        let batch := slice i (i + embeddingBatchSize) uniqueMessages in
        let contents := map content batch in
        do embeddings <~ await (AI_run "@cf/baai/bge-base-en-v1.5" contents);
        do st' <~ processMessages data filter_by embeddings 0 batch st;
        embeddingBatches fuel' data filter_by uniqueMessages
          (i + embeddingBatchSize) st'
    end
  else ret st.

(** The [try] block of [processBatch]. *)
Definition processBatchBody (data : BatchRequest) (filter_by : list string)
    (env : Env) : M W BatchResponse :=
  do _ <~ await (Client_connect (HYPERDRIVE_connectionString env));
  let stats_received := Z.of_nat (length (messages data)) in
  let uniqueMessages := removeExactDuplicates (messages data) in
  let dropped0 := stats_received - Z.of_nat (length uniqueMessages) in
  do st <~ embeddingBatches (length uniqueMessages) data filter_by uniqueMessages 0
             {| nonDuplicateMessages := []; stats_dropped := dropped0 |};
  let stats_inserted := Z.of_nat (length (nonDuplicateMessages st)) in
  let stats_insertion_rate :=
    Number.div (Number.of_Z stats_inserted) (Number.of_Z stats_received) in
  ret {| status := "success";
         data := {|
           data_table_name := table_name data;
           data_job_id := job_id data;
           data_topic := topic data;
           data_industry := industry data;
           data_subindustry := subindustry data;
           data_similarity_search_score_threshold :=
             similarity_search_score_threshold data;
           data_filter_by := filter_by;
           stats := {| received := stats_received;
                       inserted := stats_inserted;
                       dropped := stats_dropped st;
                       insertion_rate := stats_insertion_rate |};
           non_duplicate_messages := map projectMessage (nonDuplicateMessages st) |};
         message := "Batch processing completed successfully" |}.

(** [try { ... } catch (error) { throw error } finally { try { await
    dbClient.end() } catch (e) { } }]. *)
Definition processBatch (data : BatchRequest) (filter_by : list string)
    (env : Env) : M W BatchResponse :=
  tryFinally (processBatchBody data filter_by env)
    (tryCatch (await Client_end) (fun _ => ret tt)).

(** ** [fetch] ([index.ts], lines 60-144) *)

(** The parts of the HTTP request the handler reads.  [json] is the result
    of [request.json()]: [None] when the body does not parse. *)
Record Request : Type := {
  method : string;
  authorization : option string;
  json : option BatchRequest;
}.

Inductive ResponseBody : Type :=
| ErrorBody (msg : string)
| BatchBody (result : BatchResponse).

Record Response : Type := {
  response_status : Z;
  response_body : ResponseBody;
}.

Definition errorResponse (code : Z) (msg : string) : Response :=
  {| response_status := code; response_body := ErrorBody msg |}.

(** [authHeader && authHeader.startsWith("Bearer ") &&
    authHeader.substring(7) === env.DEDUP_AUTH_TOKEN]. *)
Definition authenticated (request : Request) (env : Env) : bool :=
  match authorization request with
  | None => false
  | Some authHeader =>
      truthy authHeader
      && String.prefix "Bearer " authHeader
      && String.eqb
           (String.substring 7 (String.length authHeader - 7) authHeader)
           (DEDUP_AUTH_TOKEN env)
  end.

(** The required-field test of lines 103-110.  The record type already
    gives [similarity_search_score_threshold] a value and makes [messages]
    an array, so of the six tests the four on strings remain. *)
Definition missingRequiredFields (data : BatchRequest) : bool :=
  negb (truthy (table_name data))
  || negb (truthy (job_id data))
  || negb (truthy (topic data))
  || negb (truthy (industry data)).

(** [data.filter_by || ["topic", "subindustry"]]: an array, also the empty
    one, is truthy. *)
Definition resolveFilterBy (data : BatchRequest) : list string :=
  match filter_by data with
  | Some fb => fb
  | None => ["topic"; "subindustry"]
  end.

Definition fetch (request : Request) (env : Env) : M W Response :=
  tryCatch
    (if negb (authenticated request env) then
       ret (errorResponse 401 "Unauthorized")
     else if negb (String.eqb (method request) "POST") then
       ret (errorResponse 405 "Method not allowed")
     else
       match json request with
       | None => ret (errorResponse 400 "Invalid JSON")
       | Some data =>
           if missingRequiredFields data then
             ret (errorResponse 400 "Missing required fields")
           else
             let filter_by := resolveFilterBy data in
             do result <~ processBatch data filter_by env;
             ret {| response_status := 200; response_body := BatchBody result |}
       end)
    (fun _ => ret (errorResponse 500 "Internal server error")).

End Worker.

(** ** A reference store and provider

    The store keeps, per table name, the rows in insertion order and
    interprets the two statements of the source as PostgreSQL with pgvector
    does: a committed [INSERT] is visible to every later [SELECT] (one
    connection, autocommit), the [WHERE] clause is the conjunction of its
    equalities, [ORDER BY embedding <=> v LIMIT 1] returns a row at least as
    close to [v] as every other row that satisfies the clause, and the score
    is one minus that distance.  The distance operator [<=>] is a parameter.
    The provider answers from a script; store calls fail when the fault
    script says so.  Every call is logged with its outcome. *)
Module Pg.

Record StoredRecord : Type := {
  r_job_id : string;
  r_message_id : string;
  r_timestamp : string;
  r_topic : string;
  r_industry : string;
  r_subindustry : string;
  r_content : string;
  r_embedding : embedding;
  r_similarity_search_score : number;
  r_platform_name : string;
  r_platform_user_id : string;
  r_platform_message_id : string;
  r_platform_message_url : string;
}.

Inductive Event : Type :=
| Connect (ok : bool)
| Embed (texts : list string) (ok : bool)
| Select (q : Query) (result : option (list Row))
| Insert (table : string) (row : option StoredRecord) (ok : bool)
| End (ok : bool).

Record World : Type := {
  tables : gmap string (list StoredRecord);
  providerScript : list (reply (list embedding));
  storeFaults : list bool;
  log : list Event;
}.

(** The next store call fails when the head of the fault script is [true];
    the script is consumed one entry per call. *)
Definition nextFault (w : World) : bool * World :=
  match storeFaults w with
  | [] => (false, w)
  | f :: rest =>
      (f, {| tables := tables w; providerScript := providerScript w;
             storeFaults := rest; log := log w |})
  end.

Definition logEvent (ev : Event) (w : World) : World :=
  {| tables := tables w; providerScript := providerScript w;
     storeFaults := storeFaults w; log := log w ++ [ev] |}.

Definition storeError : exn := ExternalError "store".
Definition providerError : exn := ExternalError "provider".

(** The text columns an equality of the [WHERE] clause can name. *)
Definition textColumn (r : StoredRecord) (col : string) : option string :=
  if String.eqb col "job_id" then Some (r_job_id r)
  else if String.eqb col "message_id" then Some (r_message_id r)
  else if String.eqb col "timestamp" then Some (r_timestamp r)
  else if String.eqb col "topic" then Some (r_topic r)
  else if String.eqb col "industry" then Some (r_industry r)
  else if String.eqb col "subindustry" then Some (r_subindustry r)
  else if String.eqb col "content" then Some (r_content r)
  else if String.eqb col "platform_name" then Some (r_platform_name r)
  else if String.eqb col "platform_user_id" then Some (r_platform_user_id r)
  else if String.eqb col "platform_message_id" then Some (r_platform_message_id r)
  else if String.eqb col "platform_message_url" then Some (r_platform_message_url r)
  else None.

(** [$k] is the [k]-th parameter, counted from one. *)
Definition param (params : list SqlValue) (k : nat) : option SqlValue :=
  match k with
  | O => None
  | S k' => params !! k'
  end.

(** [column = $k] on a row; [None] when the statement is ill-formed. *)
Definition evalCondition (params : list SqlValue) (r : StoredRecord)
    (c : Condition) : option bool :=
  match textColumn r (column c), param params (placeholder c) with
  | Some x, Some (VText y) => Some (String.eqb x y)
  | _, _ => None
  end.

Definition conditionsWellFormed (params : list SqlValue)
    (conds : list Condition) : bool :=
  forallb (fun c =>
             match param params (placeholder c) with
             | Some (VText _) =>
                 existsb (String.eqb (column c))
                   ["job_id"; "message_id"; "timestamp"; "topic"; "industry";
                    "subindustry"; "content"; "platform_name";
                    "platform_user_id"; "platform_message_id";
                    "platform_message_url"]
             | _ => false
             end) conds.

Definition satisfies (params : list SqlValue) (conds : list Condition)
    (r : StoredRecord) : bool :=
  forallb (fun c =>
             match evalCondition params r c with
             | Some b => b
             | None => false
             end) conds.

(** The row of an [INSERT]: thirteen values of the right kinds. *)
Definition recordOfValues (values : list SqlValue) : option StoredRecord :=
  match values with
  | [VText j; VText mid; VText ts; VText tp; VText ind; VText sub; VText c;
     VVector e; VNumber s; VText pn; VText pu; VText pm; VText purl] =>
      Some {| r_job_id := j; r_message_id := mid; r_timestamp := ts;
              r_topic := tp; r_industry := ind; r_subindustry := sub;
              r_content := c; r_embedding := e;
              r_similarity_search_score := s; r_platform_name := pn;
              r_platform_user_id := pu; r_platform_message_id := pm;
              r_platform_message_url := purl |}
  | _ => None
  end.

Section Store.

(** [distance a b] is [a <=> b]. *)
Variable distance : embedding -> embedding -> number.

(** [ORDER BY embedding <=> v LIMIT 1]: among equally close rows the
    earliest inserted one is returned. *)
Fixpoint nearest (v : embedding) (rows : list StoredRecord)
    : option StoredRecord :=
  match rows with
  | [] => None
  | r :: rest =>
      match nearest v rest with
      | None => Some r
      | Some r' =>
          if Number.pg_leb (distance (r_embedding r) v)
                           (distance (r_embedding r') v)
          then Some r else Some r'
      end
  end.

Definition scoreOf (v : embedding) (r : StoredRecord) : number :=
  Number.sub (Fin 1) (distance (r_embedding r) v).

Definition selectRows (rows : list StoredRecord) (conds : list Condition)
    (params : list SqlValue) (v : embedding) : list Row :=
  match nearest v (filter (fun r => satisfies params conds r = true) rows) with
  | None => []
  | Some r => [{| row_content := r_content r; similarity_score := scoreOf v r |}]
  end.

(** The statement on the tables, without faults: the rows it returns and
    the tables after it, or [None] when the store raises an error. *)
Definition execute (q : Query) (tbls : gmap string (list StoredRecord))
    : option (list Row * gmap string (list StoredRecord)) :=
  match q with
  | SimilarityQuery t conds vector params =>
      match tbls !! t, param params vector with
      | Some rows, Some (VVector v) =>
          if conditionsWellFormed params conds
          then Some (selectRows rows conds params v, tbls)
          else None
      | _, _ => None
      end
  | InsertQuery t values =>
      match tbls !! t, recordOfValues values with
      | Some rows, Some r => Some ([], <[t := rows ++ [r]]> tbls)
      | _, _ => None
      end
  end.

Definition eventOf (q : Query) (result : option (list Row)) : Event :=
  match q with
  | SimilarityQuery _ _ _ _ => Select q result
  | InsertQuery t values =>
      Insert t (recordOfValues values)
        (match result with Some _ => true | None => false end)
  end.

Definition pg_connect (_ : string) (w : World) : reply unit * World :=
  let (fault, w1) := nextFault w in
  if fault then (Rejected storeError, logEvent (Connect false) w1)
  else (Resolved tt, logEvent (Connect true) w1).

Definition pg_end (w : World) : reply unit * World :=
  let (fault, w1) := nextFault w in
  if fault then (Rejected storeError, logEvent (End false) w1)
  else (Resolved tt, logEvent (End true) w1).

Definition pg_query (q : Query) (w : World) : reply (list Row) * World :=
  let (fault, w1) := nextFault w in
  if fault then (Rejected storeError, logEvent (eventOf q None) w1)
  else
    match execute q (tables w1) with
    | None => (Rejected storeError, logEvent (eventOf q None) w1)
    | Some (rows, tbls) =>
        (Resolved rows,
         logEvent (eventOf q (Some rows))
           {| tables := tbls; providerScript := providerScript w1;
              storeFaults := storeFaults w1; log := log w1 |})
    end.

(** The provider returns the next scripted reply, whatever the texts; an
    exhausted script is an unavailable provider. *)
Definition ai_run (_ : string) (texts : list string) (w : World)
    : reply (list embedding) * World :=
  match providerScript w with
  | [] => (Rejected providerError, logEvent (Embed texts false) w)
  | r :: rest =>
      (r,
       logEvent (Embed texts (match r with Resolved _ => true | _ => false end))
         {| tables := tables w; providerScript := rest;
            storeFaults := storeFaults w; log := log w |})
  end.

#[local] Instance runtime : Runtime World := {|
  AI_run := ai_run;
  Client_connect := pg_connect;
  Client_query := pg_query;
  Client_end := pg_end;
|}.

End Store.

(** The rows of a table; a table that does not exist has none. *)
Definition rowsOf (w : World) (t : string) : list StoredRecord :=
  default [] (tables w !! t).

(** The effect of a logged event on a table: a successful [INSERT] into it
    appends its row, nothing else changes it. *)
Definition applyEvent (t : string) (rows : list StoredRecord) (ev : Event)
    : list StoredRecord :=
  match ev with
  | Insert t' (Some r) true => if String.eqb t' t then rows ++ [r] else rows
  | _ => rows
  end.

Definition replay (t : string) (rows : list StoredRecord) (evs : list Event)
    : list StoredRecord :=
  fold_left (applyEvent t) evs rows.

Definition succeeded (ev : Event) : bool :=
  match ev with
  | Connect ok | Embed _ ok | Insert _ _ ok | End ok => ok
  | Select _ result => match result with Some _ => true | None => false end
  end.

Definition isEnd (ev : Event) : bool :=
  match ev with
  | End _ => true
  | _ => false
  end.

End Pg.

(** ** Notions the statements below are phrased with *)

(** The message at index [i] is a first occurrence when no earlier message
    of the batch has the same content. *)
Definition isFirstOccurrence (msgs : list Message) (i : nat) (m : Message) : bool :=
  forallb (fun earlier => negb (String.eqb (content earlier) (content m)))
    (take i msgs).

(** The ordered subsequence of the first occurrences, by index. *)
Definition firstOccurrences (msgs : list Message) : list Message :=
  map snd
    (filter (fun im => isFirstOccurrence msgs (fst im) (snd im) = true)
       (imap (fun i m => (i, m)) msgs)).

(** The messages kept from [rest] when the messages of [pre] came before. *)
Definition firstOccurrencesAfter (pre rest : list Message) : list Message :=
  map snd
    (filter (fun im => isFirstOccurrence (pre ++ rest) (fst im) (snd im) = true)
       (imap (fun i m => (length pre + i, m)%nat) rest)).

Definition hasContent (c : string) (m : Message) : bool :=
  String.eqb (content m) c.

(** The step of a message that passes the threshold test: the insert, then
    the push. *)
Definition acceptStep {W : Type} `{Runtime W} (batch : BatchRequest)
    (message : Message) (e : embedding) (score : number) (st : LoopState)
    : M W LoopState :=
  do _ <~ await (Client_query (insertQuery batch message e score));
  ret {| nonDuplicateMessages := nonDuplicateMessages st ++ [message];
         stats_dropped := stats_dropped st |}.

(** The state after a message that fails the threshold test. *)
Definition rejected (st : LoopState) : LoopState :=
  {| nonDuplicateMessages := nonDuplicateMessages st;
     stats_dropped := stats_dropped st + 1 |}.

(** The four field names a filter may use, and the request's value of each. *)
Definition filterFields : list string :=
  ["topic"; "industry"; "subindustry"; "job_id"].

Definition fieldOf (data : BatchRequest) (field : string) : string :=
  if String.eqb field "topic" then topic data
  else if String.eqb field "industry" then industry data
  else if String.eqb field "subindustry" then subindustry data
  else if String.eqb field "job_id" then job_id data
  else "".

(** A field constrains the neighbour search when it is named in [filter_by],
    is one of the four fields and has a non-empty value on the request. *)
Definition fieldSelected (data : BatchRequest) (filter_by : list string)
    (field : string) : Prop :=
  field ∈ filter_by /\ field ∈ filterFields /\ truthy (fieldOf data field) = true.

(** The Stored Record of an accepted message. *)
Definition recordFor (data : BatchRequest) (message : Message)
    (e : embedding) (score : number) : Pg.StoredRecord :=
  {| Pg.r_job_id := job_id data;
     Pg.r_message_id := message_id message;
     Pg.r_timestamp := timestamp message;
     Pg.r_topic := topic data;
     Pg.r_industry := industry data;
     Pg.r_subindustry := subindustry data;
     Pg.r_content := content message;
     Pg.r_embedding := e;
     Pg.r_similarity_search_score := score;
     Pg.r_platform_name := platform_name message;
     Pg.r_platform_user_id := platform_user_id message;
     Pg.r_platform_message_id := platform_message_id message;
     Pg.r_platform_message_url := platform_message_url message |}.

Definition projectRecord (r : Pg.StoredRecord) : NonDuplicateMessage :=
  {| nd_message_id := Pg.r_message_id r; nd_content := Pg.r_content r |}.

(** The response of a batch that completes, given the messages that were
    inserted. *)
Definition responseOf (data : BatchRequest) (fb : list string)
    (kept : list Message) : BatchResponse :=
  let n := Z.of_nat (length (messages data)) in
  let k := Z.of_nat (length kept) in
  {| status := "success";
     data := {|
       data_table_name := table_name data;
       data_job_id := job_id data;
       data_topic := topic data;
       data_industry := industry data;
       data_subindustry := subindustry data;
       data_similarity_search_score_threshold :=
         similarity_search_score_threshold data;
       data_filter_by := fb;
       stats := {| received := n; inserted := k; dropped := n - k;
                   insertion_rate := Number.div (Number.of_Z k) (Number.of_Z n) |};
       non_duplicate_messages := map projectMessage kept |};
     message := "Batch processing completed successfully" |}.

(** A stored row is within the neighbour search of a request when it agrees
    with the request on every selected field. *)
Definition matchesFilter (data : BatchRequest) (filter_by : list string)
    (r : Pg.StoredRecord) : Prop :=
  forall field, fieldSelected data filter_by field ->
                Pg.textColumn r field = Some (fieldOf data field).

(** A vector is a near-duplicate of a stored row when their similarity
    score reaches the threshold. *)
Definition nearDuplicate (distance : embedding -> embedding -> number)
    (threshold : number) (v : embedding) (r : Pg.StoredRecord) : bool :=
  Number.geb (Pg.scoreOf distance v r) threshold.

(** The rows [new] were appended one by one to [rows0], each within the
    neighbour search of the request and, when it was appended, not a
    near-duplicate of any row then stored within that search. *)
Definition freshRows (distance : embedding -> embedding -> number)
    (data : BatchRequest) (filter_by : list string)
    (rows0 new : list Pg.StoredRecord) : Prop :=
  forall k rB,
    new !! k = Some rB ->
    matchesFilter data filter_by rB
    /\ forall rA,
         rA ∈ rows0 ++ take k new ->
         matchesFilter data filter_by rA ->
         nearDuplicate distance (similarity_search_score_threshold data)
           (Pg.r_embedding rB) rA = false.

(** Calls that all succeeded, the closing of the connection not among them. *)
Definition clean (evs : list Pg.Event) : Prop :=
  forall ev, ev ∈ evs -> Pg.succeeded ev = true /\ Pg.isEnd ev = false.

(** Every answered similarity query of [evs] returned the nearest matching
    row among the rows of its table before the run, in world [w], followed
    by the rows the earlier inserts of [evs] committed. *)
Definition visible (distance : embedding -> embedding -> number)
    (w : Pg.World) (evs : list Pg.Event) : Prop :=
  forall pre t conds k params rows post v,
    evs = pre ++ Pg.Select (SimilarityQuery t conds k params) (Some rows) :: post ->
    Pg.param params k = Some (VVector v) ->
    rows = Pg.selectRows distance (Pg.replay t (Pg.rowsOf w t) pre) conds params v.

(** A computation started in [w] that ended with [res]: what it logged,
    what it did to the tables, and how it can have ended. *)
Definition traced {A : Type} (distance : embedding -> embedding -> number)
    (w : Pg.World) (res : outcome A * Pg.World) (evs : list Pg.Event) : Prop :=
  Pg.log (snd res) = Pg.log w ++ evs
  /\ (forall t, Pg.rowsOf (snd res) t = Pg.replay t (Pg.rowsOf w t) evs)
  /\ visible distance w evs
  /\ (clean evs
      \/ exists pre ev,
           evs = pre ++ [ev] /\ clean pre /\ Pg.succeeded ev = false
           /\ Pg.isEnd ev = false /\ exists e, fst res = Throw e).

(** ** Sample inputs *)
Module Sample.

(** The inner product of two vectors of finite numbers of equal length. *)
Fixpoint dot (a b : embedding) : option Q :=
  match a, b with
  | [], [] => Some 0%Q
  | Fin x :: a', Fin y :: b' =>
      match dot a' b' with
      | Some d => Some (x * y + d)%Q
      | None => None
      end
  | _, _ => None
  end.

(** The cosine distance of pgvector on unit vectors: one minus the inner
    product.  The sample embeddings below are unit vectors. *)
Definition cosineDistance (a b : embedding) : number :=
  match dot a b with
  | Some d => Fin (1 - d)
  | None => NaN
  end.

Definition embA : embedding := [Fin 1; Fin 0].
Definition embB : embedding := [Fin 0; Fin 1].

Definition msg (id c : string) : Message :=
  {| message_id := id; timestamp := "2023-05-15T14:30:00Z"; content := c;
     platform_name := "Twitter"; platform_user_id := "user123";
     platform_message_id := "tweet456";
     platform_message_url := "https://twitter.com/user123/status/tweet456" |}.

Definition request (threshold : number) (fb : option (list string))
    (msgs : list Message) : BatchRequest :=
  {| table_name := "messages"; job_id := "job_123456"; topic := "cyberattack";
     industry := "finance"; subindustry := "blockchain";
     similarity_search_score_threshold := threshold;
     filter_by := fb; messages := msgs |}.

Definition env : Env :=
  {| HYPERDRIVE_connectionString := "postgres://db";
     DEDUP_AUTH_TOKEN := "test-auth-token" |}.

Definition world (rows : list Pg.StoredRecord)
    (script : list (reply (list embedding))) (faults : list bool) : Pg.World :=
  {| Pg.tables := {[ "messages" := rows ]};
     Pg.providerScript := script;
     Pg.storeFaults := faults;
     Pg.log := [] |}.

Definition threshold09 : number := Fin (9 # 10).

(** The end-to-end example of the specification. *)
Definition batchAAB : BatchRequest :=
  request threshold09 None [msg "msg_001" "A"; msg "msg_002" "A"; msg "msg_003" "B"].

Definition scriptAB : list (reply (list embedding)) :=
  [Resolved [embA; embB]].

(** A row already stored for the request's topic and subindustry, with the
    embedding of the content A. *)
Definition storedA : Pg.StoredRecord :=
  recordFor (request threshold09 None []) (msg "msg_000" "A") embA (Fin 0).

Definition batchAA : BatchRequest :=
  request threshold09 None [msg "msg_001" "A"; msg "msg_002" "A"].

Definition http (data : BatchRequest) : Request :=
  {| method := "POST"; authorization := Some "Bearer test-auth-token";
     json := Some data |}.

Definition fb : list string := ["topic"; "subindustry"].

Definition st0 : LoopState := {| nonDuplicateMessages := []; stats_dropped := 0 |}.

Definition runtime : Runtime Pg.World := Pg.runtime cosineDistance.

(** The end-to-end example on an empty table. *)
Definition runAAB : outcome BatchResponse * Pg.World :=
  processBatch (H := runtime) batchAAB fb env (world [] scriptAB []).

Definition respAAB : BatchResponse :=
  responseOf batchAAB fb [msg "msg_001" "A"; msg "msg_003" "B"].

(** Two messages with the content of a row that is already stored. *)
Definition runAA : outcome BatchResponse * Pg.World :=
  processBatch (H := runtime) batchAA fb env
    (world [storedA] [Resolved [embA]] []).

(** A batch without messages. *)
Definition batchEmpty : BatchRequest := request threshold09 None [].

Definition runEmpty : outcome BatchResponse * Pg.World :=
  processBatch (H := runtime) batchEmpty fb env (world [] [] []).

(** A request that carries an empty [filter_by]. *)
Definition batchNoFilter : BatchRequest :=
  request threshold09 (Some []) [msg "msg_001" "A"].

Definition fetchNoFilter : outcome Response * Pg.World :=
  fetch (H := runtime) (http batchNoFilter) env
    (world [] [Resolved [embA]] []).

Definition fetchAAB : outcome Response * Pg.World :=
  fetch (H := runtime) (http batchAAB) env (world [] scriptAB []).

(** A threshold of 0 on an empty table. *)
Definition batchZero : BatchRequest :=
  request (Fin 0) None [msg "msg_001" "A"].

Definition runZero : outcome BatchResponse * Pg.World :=
  processBatch (H := runtime) batchZero fb env
    (world [] [Resolved [embA]] []).

(** A stored row whose inner product with [embNear] is 9/10: the score of a
    message embedded as [embNear] is 9/10, the threshold. *)
Definition embNear : embedding := [Fin 1; Fin 0; Fin 0; Fin 0].

Definition storedNear : Pg.StoredRecord :=
  recordFor (request threshold09 None []) (msg "msg_000" "A")
    [Fin (9 # 10); Fin (3 # 10); Fin (3 # 10); Fin (1 # 10)] (Fin 0).

Definition batchNear : BatchRequest :=
  request threshold09 None [msg "msg_001" "almost A"].

Definition worldNear : Pg.World := world [storedNear] [] [].

Definition queryNear : reply (list Row) * Pg.World :=
  Pg.pg_query cosineDistance (similarityQuery batchNear fb embNear) worldNear.

(** The answer to [queryNear]; the score is 9/10 as an unreduced fraction. *)
Definition rowsNear : list Row :=
  [{| row_content := "A"; similarity_score := Fin (9000 # 10000) |}].

Definition queryEmpty : reply (list Row) * Pg.World :=
  Pg.pg_query cosineDistance (similarityQuery batchAAB fb embA) (world [] [] []).

(** The store fails at the fourth call: the query of the second message. *)
Definition runFault : outcome BatchResponse * Pg.World :=
  processBatch (H := runtime) batchAAB fb env
    (world [] scriptAB [false; false; false; true]).

Definition faultPre : list Pg.Event :=
  [ Pg.Connect true;
    Pg.Embed ["A"; "B"] true;
    Pg.Select (similarityQuery batchAAB fb embA) (Some []);
    Pg.Insert "messages"
      (Some (recordFor batchAAB (msg "msg_001" "A") embA (Fin 0))) true ].

Definition faultEv : Pg.Event :=
  Pg.Select (similarityQuery batchAAB fb embB) None.

End Sample.

(** * Theorems *)

(** ** Lists *)

Lemma map_fmap {A B} (f : A -> B) (l : list A) : map f l = f <$> l.
Proof. reflexivity. Qed.

Lemma sublist_map {A B} (f : A -> B) (l k : list A) :
  l `sublist_of` k -> map f l `sublist_of` map f k.
Proof. rewrite !map_fmap. apply fmap_sublist. Qed.

Lemma filter_sublist_mono {A} (P : A -> Prop) `{forall x, Decision (P x)}
    (l k : list A) :
  l `sublist_of` k -> filter P l `sublist_of` filter P k.
Proof.
  induction 1 as [|x l k _ IH|x l k _ IH]; [constructor| |].
  - rewrite !filter_cons. destruct (decide (P x)); [by constructor|done].
  - rewrite (filter_cons _ x k). destruct (decide (P x)); [by constructor|done].
Qed.

Lemma filter_map_comm {A B} (f : A -> B) (P : B -> Prop) (Q : A -> Prop)
    `{forall x, Decision (P x)} `{forall x, Decision (Q x)} (l : list A) :
  (forall x, P (f x) <-> Q x) ->
  filter P (map f l) = map f (filter Q l).
Proof.
  intros HPQ. induction l as [|x l IH]; [done|].
  cbn [map]. rewrite !filter_cons.
  destruct (decide (P (f x))) as [HP|HP], (decide (Q x)) as [HQ|HQ];
    cbn [map]; rewrite ?IH; try done; exfalso.
  - by apply HQ, HPQ.
  - by apply HP, HPQ.
Qed.

(** ** The exact-match filter *)
Section ExactMatch.

Implicit Types (msgs acc : list Message) (seen : gset string) (c : string).

Lemma hasContent_true c m : hasContent c m = true <-> content m = c.
Proof. unfold hasContent. apply String.eqb_eq. Qed.

Lemma isFirstOccurrence_seen pre rest m seen :
  (forall c, c ∈ seen <-> exists m', m' ∈ pre /\ content m' = c) ->
  isFirstOccurrence (pre ++ m :: rest) (length pre + 0) m = true
  <-> content m ∉ seen.
Proof.
  intros Hseen. unfold isFirstOccurrence.
  rewrite Nat.add_0_r, take_app_length, forallb_forall. split.
  - intros Hall [m' [Hin Heq]]%Hseen.
    apply list_elem_of_In, Hall in Hin.
    rewrite Heq, String.eqb_refl in Hin. discriminate.
  - intros Hnot m' Hin%list_elem_of_In.
    destruct (String.eqb_spec (content m') (content m)) as [Heq|]; [|done].
    exfalso. apply Hnot, Hseen. eauto.
Qed.

Lemma firstOccurrencesAfter_cons pre m rest :
  firstOccurrencesAfter pre (m :: rest)
  = (if isFirstOccurrence (pre ++ m :: rest) (length pre + 0) m
     then [m] else [])
    ++ firstOccurrencesAfter (pre ++ [m]) rest.
Proof.
  unfold firstOccurrencesAfter. rewrite imap_cons, filter_cons. cbn [fst snd].
  assert (Htail :
    imap ((fun i m0 => (length pre + i, m0)%nat) ∘ S) rest
    = imap (fun i m0 => (length (pre ++ [m]) + i, m0)%nat) rest).
  { apply imap_ext. intros i x _. cbn. rewrite length_app. cbn. f_equal. lia. }
  rewrite Htail, <- (app_assoc pre [m] rest). cbn [app].
  destruct (decide _) as [Hd|Hd].
  - rewrite Hd. reflexivity.
  - apply not_true_is_false in Hd. rewrite Hd. reflexivity.
Qed.

Lemma removeExactDuplicatesFrom_spec rest : forall pre seen acc,
  (forall c, c ∈ seen <-> exists m', m' ∈ pre /\ content m' = c) ->
  removeExactDuplicatesFrom seen acc rest
  = acc ++ firstOccurrencesAfter pre rest.
Proof.
  induction rest as [|m rest IH]; intros pre seen acc Hseen.
  - cbn. by rewrite app_nil_r.
  - cbn [removeExactDuplicatesFrom]. rewrite firstOccurrencesAfter_cons.
    pose proof (isFirstOccurrence_seen pre rest m seen Hseen) as Hfirst.
    assert (Hseen' : forall c, c ∈ ({[content m]} ∪ seen : gset string)
                     <-> exists m', m' ∈ pre ++ [m] /\ content m' = c).
    { intros c. rewrite elem_of_union, elem_of_singleton, Hseen. split.
      - intros [->|[m' [Hin Heq]]]; [exists m|exists m'];
          rewrite elem_of_app, list_elem_of_singleton; auto.
      - intros [m' [[Hin| ->%list_elem_of_singleton]%elem_of_app Heq]]; eauto. }
    destruct (decide (content m ∈ seen)) as [Hin|Hnot].
    + destruct (isFirstOccurrence _ _ m) eqn:E.
      * exfalso. by apply Hfirst.
      * cbn [app]. apply IH. intros c. rewrite <- Hseen'.
        rewrite elem_of_union, elem_of_singleton.
        split; [by right|]. by intros [->|?].
    + apply Hfirst in Hnot as ->. rewrite (IH (pre ++ [m]) _ _ Hseen').
      by rewrite <- app_assoc.
Qed.

Lemma removeExactDuplicates_firstOccurrences msgs :
  removeExactDuplicates msgs = firstOccurrences msgs.
Proof.
  unfold removeExactDuplicates.
  rewrite (removeExactDuplicatesFrom_spec msgs [] ∅ []).
  - reflexivity.
  - intros c. split; [set_solver|]. intros [m' [Hin _]]. by apply elem_of_nil in Hin.
Qed.

Lemma removeExactDuplicatesFrom_sublist msgs : forall seen acc,
  exists kept, removeExactDuplicatesFrom seen acc msgs = acc ++ kept
               /\ kept `sublist_of` msgs.
Proof.
  induction msgs as [|m msgs IH]; intros seen acc; cbn.
  - exists []. by rewrite app_nil_r.
  - destruct (decide _).
    + destruct (IH seen acc) as [kept [-> Hsub]].
      exists kept. split; [done|by constructor].
    + destruct (IH ({[content m]} ∪ seen) (acc ++ [m])) as [kept [-> Hsub]].
      exists (m :: kept). rewrite <- app_assoc. split; [done|by constructor].
Qed.

Lemma removeExactDuplicates_sublist msgs :
  removeExactDuplicates msgs `sublist_of` msgs.
Proof.
  destruct (removeExactDuplicatesFrom_sublist msgs ∅ []) as [kept [Heq Hsub]].
  unfold removeExactDuplicates. by rewrite Heq.
Qed.

Lemma removeExactDuplicatesFrom_NoDup msgs : forall seen acc,
  NoDup (map content acc) ->
  (forall m, m ∈ acc -> content m ∈ seen) ->
  NoDup (map content (removeExactDuplicatesFrom seen acc msgs)).
Proof.
  induction msgs as [|m msgs IH]; intros seen acc Hnd Hseen; cbn; [done|].
  destruct (decide _) as [Hin|Hnot]; [by apply IH|].
  apply IH.
  - rewrite map_app. cbn. apply NoDup_app. repeat split; [done| |].
    + intros c Hc Hc'. apply list_elem_of_singleton in Hc'. subst c.
      rewrite map_fmap in Hc. apply list_elem_of_fmap in Hc as [m' [Heq Hm']].
      apply Hnot. rewrite Heq. by apply Hseen.
    + apply NoDup_singleton.
  - intros m' [Hin| ->%list_elem_of_singleton]%elem_of_app; [|set_solver].
    apply elem_of_union_r. by apply Hseen.
Qed.

Lemma removeExactDuplicates_NoDup msgs :
  NoDup (map content (removeExactDuplicates msgs)).
Proof.
  apply removeExactDuplicatesFrom_NoDup; [constructor|].
  intros m Hin. by apply elem_of_nil in Hin.
Qed.

Lemma removeExactDuplicatesFrom_content c msgs : forall seen acc,
  filter (fun m => hasContent c m = true) (removeExactDuplicatesFrom seen acc msgs)
  = filter (fun m => hasContent c m = true) acc
    ++ (if decide (c ∈ seen) then []
        else take 1 (filter (fun m => hasContent c m = true) msgs)).
Proof.
  induction msgs as [|m msgs IH]; intros seen acc; cbn [removeExactDuplicatesFrom].
  - destruct (decide _); rewrite ?filter_nil; cbn [take]; by rewrite app_nil_r.
  - rewrite (filter_cons _ m msgs).
    destruct (decide (content m ∈ seen)) as [Hin|Hnot]; rewrite IH.
    + destruct (decide (c ∈ seen)) as [|Hc]; [done|].
      destruct (decide (hasContent c m = true)) as [Heq%hasContent_true|]; [|done].
      congruence.
    + rewrite filter_app, filter_singleton by exact [].
      destruct (decide (hasContent c m = true)) as [Heq%hasContent_true|Hne].
      * subst c. rewrite decide_True by set_solver.
        rewrite decide_False by done. cbn. by rewrite <- app_assoc.
      * rewrite app_nil_r.
        assert (content m <> c) by (by rewrite <- hasContent_true).
        destruct (decide (c ∈ seen)).
        -- rewrite decide_True by by apply elem_of_union_r. done.
        -- rewrite decide_False; [done|].
           rewrite elem_of_union, elem_of_singleton. by intros [?|?].
Qed.

Lemma removeExactDuplicates_content c msgs :
  filter (fun m => hasContent c m = true) (removeExactDuplicates msgs)
  = take 1 (filter (fun m => hasContent c m = true) msgs).
Proof.
  unfold removeExactDuplicates. rewrite removeExactDuplicatesFrom_content.
  by rewrite filter_nil, decide_False by set_solver.
Qed.

End ExactMatch.

(** ** Runs of the worker against any collaborators *)
Section Runs.

Context {W : Type} `{Runtime W}.

Implicit Types (data : BatchRequest) (st : LoopState) (w : W).

Lemma bind_Ok {A B} (m : M W A) (k : A -> M W B) w b w' :
  bind m k w = (Ok b, w') ->
  exists a w1, m w = (Ok a, w1) /\ k a w1 = (Ok b, w').
Proof.
  unfold bind. destruct (m w) as [[a|e|] w1]; [eauto|discriminate..].
Qed.

Lemma await_Ok {A} (p : W -> reply A * W) w a w' :
  await p w = (Ok a, w') <-> p w = (Resolved a, w').
Proof.
  unfold await. destruct (p w) as [[a'|e] w1]; split; congruence.
Qed.

Lemma await_not_OutOfFuel {A} (p : W -> reply A * W) w :
  fst (await p w) <> OutOfFuel.
Proof. unfold await. by destruct (p w) as [[a|e] w1]. Qed.

(** What one message does to the loop state when its step completes. *)
Lemma processMessage_Ok data fb embeddings j message st w st' w' :
  processMessage data fb embeddings j message st w = (Ok st', w') ->
  (nonDuplicateMessages st' = nonDuplicateMessages st ++ [message]
   /\ stats_dropped st' = stats_dropped st)
  \/ (nonDuplicateMessages st' = nonDuplicateMessages st
      /\ stats_dropped st' = stats_dropped st + 1).
Proof.
  unfold processMessage. destruct (embeddings !! j) as [e|]; [|discriminate].
  intros (rows & w1 & _ & Hk)%bind_Ok.
  destruct (belowThreshold _ data).
  - apply bind_Ok in Hk as (? & w2 & _ & Hret). injection Hret as <- _. by left.
  - injection Hk as <- _. by right.
Qed.

Lemma processMessage_not_OutOfFuel data fb embeddings j message st w :
  fst (processMessage data fb embeddings j message st w) <> OutOfFuel.
Proof.
  unfold processMessage. destruct (embeddings !! j) as [e|]; [|done].
  unfold bind, await.
  destruct (Client_query _ w) as [[rows|err] w1]; [|done].
  destruct (belowThreshold _ data); [|done].
  by destruct (Client_query _ w1) as [[?|?] w2].
Qed.

Lemma processMessages_Ok data fb embeddings rest : forall j st w st' w',
  processMessages data fb embeddings j rest st w = (Ok st', w') ->
  exists kept,
    nonDuplicateMessages st' = nonDuplicateMessages st ++ kept
    /\ kept `sublist_of` rest
    /\ stats_dropped st'
       = stats_dropped st + Z.of_nat (length rest) - Z.of_nat (length kept).
Proof.
  induction rest as [|message rest IH]; intros j st w st' w' Hrun.
  - injection Hrun as <- _. exists []. rewrite app_nil_r. cbn.
    repeat split; [constructor|lia].
  - cbn [processMessages] in Hrun.
    apply bind_Ok in Hrun as (st1 & w1 & Hstep & Hrest).
    apply IH in Hrest as (kept & Hnd & Hsub & Hdrop).
    apply processMessage_Ok in Hstep as [[Hnd1 Hdrop1]|[Hnd1 Hdrop1]].
    + exists (message :: kept). rewrite Hnd, Hnd1, <- app_assoc.
      repeat split; [by constructor|]. cbn [length]. lia.
    + exists kept. rewrite Hnd, Hnd1.
      repeat split; [by constructor|]. cbn [length]. lia.
Qed.

Lemma processMessages_not_OutOfFuel data fb embeddings rest : forall j st w,
  fst (processMessages data fb embeddings j rest st w) <> OutOfFuel.
Proof.
  induction rest as [|message rest IH]; intros j st w; [done|].
  cbn [processMessages]. unfold bind.
  pose proof (processMessage_not_OutOfFuel data fb embeddings j message st w) as Hm.
  destruct (processMessage _ _ _ _ _ _ w) as [[st1|e|] w1]; [apply IH|done..].
Qed.

Lemma slice_drop {A} (l : list A) i n :
  slice i (i + n) l ++ drop (i + n) l = drop i l.
Proof.
  unfold slice. replace (i + n - i)%nat with n by lia.
  rewrite <- drop_drop. apply take_drop.
Qed.

Lemma embeddingBatches_Ok data fb uniqueMessages fuel : forall i st w st' w',
  embeddingBatches fuel data fb uniqueMessages i st w = (Ok st', w') ->
  exists kept,
    nonDuplicateMessages st' = nonDuplicateMessages st ++ kept
    /\ kept `sublist_of` drop i uniqueMessages
    /\ stats_dropped st'
       = stats_dropped st + Z.of_nat (length (drop i uniqueMessages))
         - Z.of_nat (length kept).
Proof.
  induction fuel as [|fuel IH]; intros i st w st' w' Hrun;
    cbn [embeddingBatches] in Hrun;
    (destruct (decide (i < length uniqueMessages)%nat) as [Hlt|Hge];
     [|injection Hrun as <- _; exists []; rewrite app_nil_r, drop_ge by lia;
       cbn; repeat split; [constructor|lia]]).
  - discriminate.
  - apply bind_Ok in Hrun as (embeddings & w1 & _ & Hrun).
    apply bind_Ok in Hrun as (st1 & w2 & Hbatch & Hrun).
    apply processMessages_Ok in Hbatch as (kept1 & Hnd1 & Hsub1 & Hdrop1).
    apply IH in Hrun as (kept2 & Hnd2 & Hsub2 & Hdrop2).
    exists (kept1 ++ kept2). rewrite Hnd2, Hnd1, <- app_assoc.
    pose proof (slice_drop uniqueMessages i embeddingBatchSize) as Hsplit.
    repeat split.
    + rewrite <- Hsplit. by apply sublist_app.
    + rewrite <- Hsplit, !length_app. lia.
Qed.

Lemma embeddingBatches_not_OutOfFuel data fb uniqueMessages fuel :
  forall i st w,
    (length uniqueMessages <= i + fuel)%nat ->
    fst (embeddingBatches fuel data fb uniqueMessages i st w) <> OutOfFuel.
Proof.
  induction fuel as [|fuel IH]; intros i st w Hfuel; cbn [embeddingBatches];
    (destruct (decide (i < length uniqueMessages)%nat) as [Hlt|Hge]; [|done]).
  - lia.
  - unfold bind.
    pose proof (await_not_OutOfFuel
                  (AI_run "@cf/baai/bge-base-en-v1.5"
                     (map content (slice i (i + embeddingBatchSize) uniqueMessages)))
                  w) as Ha.
    destruct (await _ w) as [[embeddings|e|] w1]; [|done..].
    pose proof (processMessages_not_OutOfFuel data fb embeddings
                  (slice i (i + embeddingBatchSize) uniqueMessages) 0 st w1) as Hm.
    destruct (processMessages _ _ _ _ _ _ w1) as [[st1|e|] w2]; [|done..].
    apply IH. unfold embeddingBatchSize. lia.
Qed.

Lemma processBatch_run data fb env w :
  processBatch data fb env w
  = (fst (processBatchBody data fb env w),
     snd (Client_end (snd (processBatchBody data fb env w)))).
Proof.
  unfold processBatch, tryFinally, tryCatch, await, ret.
  destruct (processBatchBody data fb env w) as [r w1]. cbn [fst snd].
  by destruct (Client_end w1) as [[[]|e] w2].
Qed.

Lemma processBatchBody_Ok data fb env w resp w' :
  processBatchBody data fb env w = (Ok resp, w') ->
  exists kept,
    kept `sublist_of` removeExactDuplicates (messages data)
    /\ resp = responseOf data fb kept.
Proof.
  unfold processBatchBody.
  intros (? & w1 & _ & Hrun)%bind_Ok.
  apply bind_Ok in Hrun as (st & w2 & Hloop & Hret).
  apply embeddingBatches_Ok in Hloop as (kept & Hnd & Hsub & Hdrop).
  cbn [nonDuplicateMessages stats_dropped app] in Hnd, Hdrop.
  rewrite drop_0 in Hsub, Hdrop.
  exists kept. split; [done|].
  injection Hret as <- _. unfold responseOf. rewrite Hnd, Hdrop.
  do 3 f_equal. lia.
Qed.

Lemma processBatch_Ok data fb env w resp w' :
  processBatch data fb env w = (Ok resp, w') ->
  exists kept,
    kept `sublist_of` removeExactDuplicates (messages data)
    /\ resp = responseOf data fb kept.
Proof.
  rewrite processBatch_run. intros Hrun.
  destruct (processBatchBody data fb env w) as [r w1] eqn:Hbody.
  cbn [fst snd] in Hrun. injection Hrun as -> _.
  by apply processBatchBody_Ok in Hbody.
Qed.

(** The fuel [processBatch] gives its outer loop always suffices. *)
Lemma processBatch_not_OutOfFuel data fb env w :
  fst (processBatch data fb env w) <> OutOfFuel.
Proof.
  rewrite processBatch_run. cbn [fst]. unfold processBatchBody, bind.
  pose proof (await_not_OutOfFuel
                (Client_connect (HYPERDRIVE_connectionString env)) w) as Ha.
  destruct (await _ w) as [[[]|e|] w1]; [|done..].
  pose proof (embeddingBatches_not_OutOfFuel data fb
                (removeExactDuplicates (messages data))
                (length (removeExactDuplicates (messages data))) 0
                {| nonDuplicateMessages := [];
                   stats_dropped :=
                     Z.of_nat (length (messages data))
                     - Z.of_nat (length (removeExactDuplicates (messages data))) |}
                w1 ltac:(lia)) as Hloop.
  by destruct (embeddingBatches _ _ _ _ _ _ w1) as [[st|e|] w2].
Qed.

(** [fetch] always answers: it neither throws nor runs out of fuel. *)
Lemma fetch_answers request env w :
  exists response, fst (fetch request env w) = Ok response.
Proof.
  unfold fetch, tryCatch, ret.
  destruct (negb (authenticated request env)); [eauto|].
  destruct (negb (String.eqb (method request) "POST")); [eauto|].
  destruct (json request) as [data|]; [|eauto].
  destruct (missingRequiredFields data); [eauto|].
  unfold bind.
  pose proof (processBatch_not_OutOfFuel data (resolveFilterBy data) env w) as Hf.
  destruct (processBatch _ _ env w) as [[resp|e|] w1]; cbn; eauto. done.
Qed.

(** A batch that throws is answered with status 500 and no batch payload. *)
Lemma fetch_500 request data env w e w' :
  authenticated request env = true ->
  method request = "POST" ->
  json request = Some data ->
  missingRequiredFields data = false ->
  processBatch data (resolveFilterBy data) env w = (Throw e, w') ->
  fetch request env w = (Ok (errorResponse 500 "Internal server error"), w').
Proof.
  intros Hauth Hmethod Hjson Hfields Hrun.
  unfold fetch. rewrite Hauth, Hmethod, Hjson, Hfields, String.eqb_refl.
  cbn [negb]. unfold tryCatch, bind. rewrite Hrun. reflexivity.
Qed.

(** A batch payload in the answer is the result of a completed batch. *)
Lemma fetch_200 request env w result w' :
  fetch request env w
  = (Ok {| response_status := 200; response_body := BatchBody result |}, w') ->
  exists data,
    json request = Some data
    /\ processBatch data (resolveFilterBy data) env w = (Ok result, w').
Proof.
  unfold fetch, tryCatch, ret, errorResponse.
  destruct (negb (authenticated request env)); [discriminate|].
  destruct (negb (String.eqb (method request) "POST")); [discriminate|].
  destruct (json request) as [data|]; [|discriminate].
  destruct (missingRequiredFields data); [discriminate|].
  unfold bind.
  destruct (processBatch _ _ env w) as [[resp|e|] w1] eqn:Hrun; [|discriminate..].
  intros [= <- <-]. eauto.
Qed.

End Runs.

(** ** Statistics and the accepted list of a completed batch *)
Section CompletedBatch.

Context {W : Type} `{Runtime W}.

Implicit Types (batch : BatchRequest) (w : W) (resp : BatchResponse).

(** C4: for every batch that completes successfully the statistics satisfy
    [received = inserted + dropped]; [dropped] is the number of exact
    duplicates plus the number of messages the similarity gate rejected. *)
Theorem received_eq_inserted_plus_dropped batch fb env w resp w' :
  processBatch batch fb env w = (Ok resp, w') ->
  let s := stats (data resp) in
  let exact :=
    Z.of_nat (length (messages batch))
    - Z.of_nat (length (removeExactDuplicates (messages batch))) in
  let rejected :=
    Z.of_nat (length (removeExactDuplicates (messages batch))) - inserted s in
  received s = inserted s + dropped s
  /\ dropped s = exact + rejected
  /\ 0 <= exact /\ 0 <= rejected.
Proof.
  intros (kept & Hsub & ->)%processBatch_Ok. cbn.
  pose proof (sublist_length _ _ Hsub).
  pose proof (sublist_length _ _ (removeExactDuplicates_sublist (messages batch))).
  lia.
Qed.

(** C10: for every batch that completes successfully the returned
    [non_duplicate_messages] is the projection to [message_id] and [content]
    of a subsequence of the input messages, and its entries have pairwise
    distinct contents, whatever the store and the provider return. *)
Theorem non_duplicate_messages_subsequence batch fb env w resp w' :
  processBatch batch fb env w = (Ok resp, w') ->
  exists kept,
    kept `sublist_of` messages batch
    /\ non_duplicate_messages (data resp) = map projectMessage kept
    /\ NoDup (map nd_content (non_duplicate_messages (data resp))).
Proof.
  intros (kept & Hsub & ->)%processBatch_Ok. exists kept. cbn.
  split; [|split; [done|]].
  - etrans; [exact Hsub|apply removeExactDuplicates_sublist].
  - rewrite map_map. cbn.
    eapply sublist_NoDup; [apply removeExactDuplicates_NoDup|].
    by apply sublist_map.
Qed.

(** The rate of a batch with at least one message (first half of C5). *)
Lemma insertion_rate_nonempty batch fb env w resp w' :
  processBatch batch fb env w = (Ok resp, w') ->
  0 < received (stats (data resp)) ->
  insertion_rate (stats (data resp))
  = Fin (inject_Z (inserted (stats (data resp)))
         / inject_Z (received (stats (data resp)))).
Proof.
  intros (kept & Hsub & ->)%processBatch_Ok. cbn. intros Hpos.
  unfold Number.of_Z.
  destruct (Qeq_bool _ 0) eqn:Hzero; [|done].
  apply Qeq_bool_iff in Hzero. unfold Qeq in Hzero. cbn in Hzero. lia.
Qed.

(** C5 (second half, as the code has it): a batch without messages
    completes with [insertion_rate] NaN, the value of [0 / 0], not 0. *)
Theorem insertion_rate_empty_batch batch fb env w resp w' :
  messages batch = [] ->
  processBatch batch fb env w = (Ok resp, w') ->
  received (stats (data resp)) = 0
  /\ insertion_rate (stats (data resp)) = NaN.
Proof.
  intros Hempty (kept & Hsub & ->)%processBatch_Ok. cbn.
  rewrite Hempty in *. apply sublist_nil_r in Hsub as ->. by cbn.
Qed.

(** C3, as amended: the exact-match filter returns the subsequence of the
    first occurrences of each content (exact string equality), so of the
    messages with one content it keeps exactly the first; the accepted list
    of a completed batch contains at most that first one, never a later
    occurrence. *)
Theorem exact_match_first_occurrence batch c :
  let first :=
    take 1 (filter (fun m => hasContent c m = true) (messages batch)) in
  removeExactDuplicates (messages batch) = firstOccurrences (messages batch)
  /\ removeExactDuplicates (messages batch) `sublist_of` messages batch
  /\ filter (fun m => hasContent c m = true)
       (removeExactDuplicates (messages batch)) = first
  /\ forall fb env w resp w',
       processBatch batch fb env w = (Ok resp, w') ->
       filter (fun n => nd_content n = c) (non_duplicate_messages (data resp))
       `sublist_of` map projectMessage first.
Proof.
  cbn.
  split; [apply removeExactDuplicates_firstOccurrences|].
  split; [apply removeExactDuplicates_sublist|].
  split; [apply removeExactDuplicates_content|].
  intros fb env w resp w' (kept & Hsub & ->)%processBatch_Ok. cbn.
  rewrite (filter_map_comm projectMessage _ (fun m => hasContent c m = true)).
  - apply sublist_map. rewrite <- removeExactDuplicates_content.
    by apply filter_sublist_mono.
  - intros m. cbn. by rewrite hasContent_true.
Qed.

End CompletedBatch.

(** ** The similarity gate, one message at a time *)
Section ThresholdTest.

Context {W : Type} `{Runtime W}.

Implicit Types (batch : BatchRequest) (st : LoopState) (w : W).

Lemma processMessage_decides batch fb embeddings j message st w e rows w1 :
  embeddings !! j = Some e ->
  Client_query (similarityQuery batch fb e) w = (Resolved rows, w1) ->
  processMessage batch fb embeddings j message st w
  = if Number.ltb (similarityScoreOf rows)
         (similarity_search_score_threshold batch)
    then acceptStep batch message e (similarityScoreOf rows) st w1
    else (Ok (rejected st), w1).
Proof.
  intros He Hq. unfold processMessage, acceptStep, belowThreshold.
  rewrite He. unfold bind at 1. unfold await at 1. rewrite Hq.
  by destruct (Number.ltb _ _).
Qed.

Lemma ltb_irrefl x y : Number.eqb x y = true -> Number.ltb x y = false.
Proof.
  destruct x as [a| | |], y as [b| | |]; cbn; try done.
  intros Heq%Qeq_bool_iff. unfold Qltb.
  apply negb_false_iff, Qle_bool_iff. rewrite Heq. apply Qle_refl.
Qed.

(** C2: the decision compares with a strict less-than.  For a message whose
    nearest-neighbour query answered, a score strictly below the threshold
    sends the message to the insert and, once that succeeds, to the accepted
    list; any other score, in particular one equal to the threshold, rejects
    the message and counts it as dropped, without an insert. *)
Theorem strict_less_than_decides batch fb embeddings j message st w e rows w1 :
  embeddings !! j = Some e ->
  Client_query (similarityQuery batch fb e) w = (Resolved rows, w1) ->
  let score := similarityScoreOf rows in
  let threshold := similarity_search_score_threshold batch in
  (Number.ltb score threshold = true ->
   processMessage batch fb embeddings j message st w
   = acceptStep batch message e score st w1)
  /\ (Number.ltb score threshold = false ->
      processMessage batch fb embeddings j message st w = (Ok (rejected st), w1))
  /\ (Number.eqb score threshold = true ->
      processMessage batch fb embeddings j message st w = (Ok (rejected st), w1)).
Proof.
  intros He Hq score threshold.
  pose proof (processMessage_decides batch fb embeddings j message st w e rows w1
                He Hq) as Hstep.
  fold score threshold in Hstep.
  split; [|split].
  - intros Hlt. by rewrite Hstep, Hlt.
  - intros Hlt. by rewrite Hstep, Hlt.
  - intros Heq%ltb_irrefl. by rewrite Hstep, Heq.
Qed.

(** C8, as amended: when the nearest-neighbour query finds no row the score
    is 0, and the message is accepted exactly when 0 is strictly below the
    threshold; with a threshold of 0 or less it is rejected. *)
Theorem no_neighbour_scores_zero batch fb embeddings j message st w e w1 :
  embeddings !! j = Some e ->
  Client_query (similarityQuery batch fb e) w = (Resolved [], w1) ->
  let threshold := similarity_search_score_threshold batch in
  similarityScoreOf [] = Fin 0
  /\ (Number.ltb (Fin 0) threshold = true ->
      processMessage batch fb embeddings j message st w
      = acceptStep batch message e (Fin 0) st w1)
  /\ (Number.ltb (Fin 0) threshold = false ->
      processMessage batch fb embeddings j message st w = (Ok (rejected st), w1)).
Proof.
  intros He Hq threshold.
  pose proof (processMessage_decides batch fb embeddings j message st w e [] w1
                He Hq) as Hstep.
  cbn [similarityScoreOf] in Hstep. fold threshold in Hstep.
  split; [done|]. split; intros Hlt; by rewrite Hstep, Hlt.
Qed.

End ThresholdTest.

(** ** The filter predicate *)
Section FilterPredicate.

Implicit Types (batch : BatchRequest) (b : QueryBuilder) (fb : list string).

Lemma addFilterField_cases batch b field :
  (field ∈ filterFields /\ truthy (fieldOf batch field) = true
   /\ addFilterField batch b field = pushCondition b field (fieldOf batch field))
  \/ (~ (field ∈ filterFields /\ truthy (fieldOf batch field) = true)
      /\ addFilterField batch b field = b).
Proof.
  unfold addFilterField, filterFields.
  destruct (String.eqb_spec field "topic") as [->|Ht].
  { cbn. destruct (truthy (topic batch)) eqn:E; [left|right]; cbn.
    - repeat split; try done; set_solver.
    - split; [|done]. intros [_ ?]. congruence. }
  destruct (String.eqb_spec field "industry") as [->|Hi].
  { cbn. destruct (truthy (industry batch)) eqn:E; [left|right]; cbn.
    - repeat split; try done; set_solver.
    - split; [|done]. intros [_ ?]. congruence. }
  destruct (String.eqb_spec field "subindustry") as [->|Hs].
  { cbn. destruct (truthy (subindustry batch)) eqn:E; [left|right]; cbn.
    - repeat split; try done; set_solver.
    - split; [|done]. intros [_ ?]. congruence. }
  destruct (String.eqb_spec field "job_id") as [->|Hj].
  { cbn. destruct (truthy (job_id batch)) eqn:E; [left|right]; cbn.
    - repeat split; try done; set_solver.
    - split; [|done]. intros [_ ?]. congruence. }
  right. cbn. split; [|done]. intros [Hin _].
  rewrite !elem_of_cons, elem_of_nil in Hin.
  by destruct Hin as [?|[?|[?|[?|[]]]]].
Qed.

Lemma param_app_l params extra k v :
  Pg.param params k = Some v -> Pg.param (params ++ extra) k = Some v.
Proof. destruct k as [|k]; [done|]. cbn. apply lookup_app_l_Some. Qed.

Lemma param_app_last params v :
  Pg.param (params ++ [v]) (S (length params)) = Some v.
Proof. cbn. by rewrite list_lookup_middle. Qed.

Lemma fieldSelected_app batch fb field extra :
  fieldSelected batch fb field -> fieldSelected batch (fb ++ extra) field.
Proof. unfold fieldSelected. rewrite elem_of_app. tauto. Qed.

(** What [filter_by.forEach] has built after the fields [fb]. *)
Lemma buildConditions_inv batch fb :
  let b := buildConditions batch fb in
  paramIndex b = S (length (queryParams b))
  /\ (forall c, c ∈ whereConditions b ->
        fieldSelected batch fb (column c)
        /\ Pg.param (queryParams b) (placeholder c)
           = Some (VText (fieldOf batch (column c))))
  /\ (forall field, fieldSelected batch fb field ->
        exists c, c ∈ whereConditions b /\ column c = field).
Proof.
  induction fb as [|field fb IH] using rev_ind.
  - cbn. split; [done|]. split.
    + intros c Hc. by apply elem_of_nil in Hc.
    + intros field [Hin _]. by apply elem_of_nil in Hin.
  - unfold buildConditions in *. rewrite fold_left_app. cbn [fold_left].
    set (b := fold_left (addFilterField batch) fb _) in *.
    cbn zeta in IH. destruct IH as (Hidx & Hconds & Hfields).
    destruct (addFilterField_cases batch b field)
      as [(Hin & Htruthy & ->)|(Hnot & ->)]; cbn zeta.
    + cbn [pushCondition paramIndex queryParams whereConditions].
      split; [rewrite length_app; cbn; lia|]. split.
      * intros c [Hc| ->%list_elem_of_singleton]%elem_of_app.
        -- destruct (Hconds c Hc) as [Hsel Hparam].
           split; [by apply fieldSelected_app|by apply param_app_l].
        -- cbn [column placeholder]. split.
           ++ unfold fieldSelected. rewrite elem_of_app, list_elem_of_singleton. auto.
           ++ rewrite Hidx. apply param_app_last.
      * intros f (Hf & Hff & Hft). apply elem_of_app in Hf as [Hf|Hf].
        -- destruct (Hfields f) as (c & Hc & Hcol); [done|].
           exists c. rewrite elem_of_app. auto.
        -- apply list_elem_of_singleton in Hf as ->.
           eexists. rewrite elem_of_app, list_elem_of_singleton. split; [by right|done].
    + split; [done|]. split.
      * intros c Hc. destruct (Hconds c Hc) as [Hsel Hparam].
        split; [by apply fieldSelected_app|done].
      * intros f (Hf & Hff & Hft). apply elem_of_app in Hf as [Hf|Hf].
        -- by apply Hfields.
        -- apply list_elem_of_singleton in Hf as ->. by destruct Hnot.
Qed.

Lemma textColumn_filterField r field :
  field ∈ filterFields -> is_Some (Pg.textColumn r field).
Proof.
  unfold filterFields. rewrite !elem_of_cons, elem_of_nil.
  intros [->|[->|[->|[->|[]]]]]; by eexists.
Qed.

Lemma similarityQuery_vector batch fb (e : embedding) :
  let b := buildConditions batch fb in
  Pg.param (queryParams b ++ [VVector e]) (paramIndex b) = Some (VVector e).
Proof.
  intros b. destruct (buildConditions_inv batch fb) as (Hidx & _).
  fold b in Hidx. rewrite Hidx. apply param_app_last.
Qed.

Lemma condition_param batch fb (e : embedding) c :
  let b := buildConditions batch fb in
  c ∈ whereConditions b ->
  Pg.param (queryParams b ++ [VVector e]) (placeholder c)
  = Some (VText (fieldOf batch (column c))).
Proof.
  intros b Hc. destruct (buildConditions_inv batch fb) as (_ & Hconds & _).
  apply param_app_l. by apply Hconds.
Qed.

Lemma condition_fields batch fb field :
  (exists c, c ∈ whereConditions (buildConditions batch fb) /\ column c = field)
  <-> fieldSelected batch fb field.
Proof.
  destruct (buildConditions_inv batch fb) as (_ & Hconds & Hfields).
  split; [|apply Hfields]. intros (c & Hc & <-). by apply Hconds.
Qed.

Lemma satisfies_matchesFilter batch fb (e : embedding) r :
  let b := buildConditions batch fb in
  Pg.satisfies (queryParams b ++ [VVector e]) (whereConditions b) r = true
  <-> matchesFilter batch fb r.
Proof.
  cbn zeta. unfold Pg.satisfies, matchesFilter. rewrite forallb_forall. split.
  - intros Hall field Hsel.
    destruct (proj2 (condition_fields batch fb field) Hsel) as (c & Hc & <-).
    specialize (Hall c (proj1 (list_elem_of_In _ _) Hc)).
    unfold Pg.evalCondition in Hall. rewrite (condition_param batch fb e c Hc) in Hall.
    destruct (Pg.textColumn r (column c)) as [x|]; [|done].
    by apply String.eqb_eq in Hall as ->.
  - intros Hall c Hc%list_elem_of_In.
    unfold Pg.evalCondition. rewrite (condition_param batch fb e c Hc).
    rewrite (Hall (column c)).
    + apply String.eqb_refl.
    + apply condition_fields. by exists c.
Qed.

(** C7: the predicate of every nearest-neighbour query has an equality for
    exactly the fields that are named in [filter_by], belong to topic,
    industry, subindustry, job_id, and are non-empty on the request; each
    equality compares the column with the request's value; a row satisfies
    the predicate exactly when it agrees with the request on those fields,
    so a field that is not in [filter_by] never constrains the search. *)
Theorem filter_predicate_fields batch fb (e : embedding) :
  let b := buildConditions batch fb in
  let params := queryParams b ++ [VVector e] in
  similarityQuery batch fb e
  = SimilarityQuery (table_name batch) (whereConditions b) (paramIndex b) params
  /\ Pg.param params (paramIndex b) = Some (VVector e)
  /\ (forall field,
        (exists c, c ∈ whereConditions b /\ column c = field)
        <-> field ∈ fb /\ field ∈ filterFields
            /\ truthy (fieldOf batch field) = true)
  /\ (forall c, c ∈ whereConditions b ->
        Pg.param params (placeholder c) = Some (VText (fieldOf batch (column c))))
  /\ (forall r,
        Pg.satisfies params (whereConditions b) r = true
        <-> forall field,
              field ∈ fb -> field ∈ filterFields ->
              truthy (fieldOf batch field) = true ->
              Pg.textColumn r field = Some (fieldOf batch field)).
Proof.
  intros b params.
  split; [done|]. split; [apply similarityQuery_vector|].
  split; [apply condition_fields|].
  split; [intros c; apply condition_param|].
  intros r. unfold params, b. rewrite satisfies_matchesFilter.
  unfold matchesFilter, fieldSelected. split.
  - intros Hm field ? ? ?. by apply Hm.
  - intros Hm field (? & ? & ?). by apply Hm.
Qed.

End FilterPredicate.

(** ** Defaulting of [filter_by] *)

(** C6, as amended: an absent [filter_by] resolves to topic and
    subindustry, a present one resolves to itself; the resolved list, which
    the response echoes, is therefore empty exactly when the request carries
    an empty [filter_by]. *)
Theorem filter_by_resolution {W : Type} `{Runtime W} (request : Request)
    (batch : BatchRequest) env (w : W) result w' :
  json request = Some batch ->
  fetch request env w
  = (Ok {| response_status := 200; response_body := BatchBody result |}, w') ->
  data_filter_by (data result) = resolveFilterBy batch
  /\ (filter_by batch = None -> resolveFilterBy batch = ["topic"; "subindustry"])
  /\ (forall fb, filter_by batch = Some fb -> resolveFilterBy batch = fb)
  /\ (resolveFilterBy batch = [] <-> filter_by batch = Some []).
Proof.
  intros Hjson (batch' & Hjson' & Hrun)%fetch_200.
  assert (batch' = batch) as -> by congruence.
  apply processBatch_Ok in Hrun as (kept & _ & ->).
  unfold resolveFilterBy. cbn.
  destruct (filter_by batch) as [fb|]; repeat split; try congruence.
Qed.

(** ** Numbers: the order of the store and the threshold test *)
Section NumberOrder.

Implicit Types (x y z : number).

Lemma pg_leb_Fin a b : Number.pg_leb (Fin a) (Fin b) = Qle_bool a b.
Proof. cbn. unfold Qltb. by rewrite negb_involutive. Qed.

Lemma pg_leb_refl x : Number.pg_leb x x = true.
Proof.
  destruct x as [a| | |]; try done.
  rewrite pg_leb_Fin. apply Qle_bool_iff, Qle_refl.
Qed.

Lemma pg_leb_total x y : Number.pg_leb x y = false -> Number.pg_leb y x = true.
Proof.
  destruct x as [a| | |], y as [b| | |]; try done.
  rewrite !pg_leb_Fin. intros Hab. apply Qle_bool_iff.
  destruct (Qlt_le_dec a b) as [Hlt|Hle]; [|done].
  apply Qlt_le_weak, Qle_bool_iff in Hlt. congruence.
Qed.

Lemma pg_leb_trans x y z :
  Number.pg_leb x y = true -> Number.pg_leb y z = true ->
  Number.pg_leb x z = true.
Proof.
  destruct x as [a| | |], y as [b| | |], z as [c| | |]; try done.
  rewrite !pg_leb_Fin, !Qle_bool_iff. apply Qle_trans.
Qed.

(** A row at least as far as the nearest one does not reach a threshold
    that the nearest one's score is strictly below. *)
Lemma farther_row_below_threshold (dNearest d threshold : number) :
  Number.pg_leb dNearest d = true ->
  Number.ltb (Number.sub (Fin 1) dNearest) threshold = true ->
  Number.geb (Number.sub (Fin 1) d) threshold = false.
Proof.
  destruct dNearest as [a| | |], d as [b| | |], threshold as [c| | |];
    try done.
  rewrite pg_leb_Fin, Qle_bool_iff. cbn. unfold Qltb.
  rewrite !negb_true_iff, negb_false_iff, negb_true_iff.
  intros Hab Hlt. destruct (Qle_bool c (1 - b)) eqn:Hle; [|done].
  apply Qle_bool_iff in Hle.
  assert (Qle_bool c (1 - a) = true); [|congruence].
  apply Qle_bool_iff. apply (Qle_trans _ _ _ Hle).
  unfold Qminus. apply Qplus_le_r, Qopp_le_compat, Hab.
Qed.

End NumberOrder.

(** ** Logged runs against the reference store *)
Section Traces.

Variable distance : embedding -> embedding -> number.

Implicit Types (w : Pg.World) (evs pre post : list Pg.Event) (t : string).

Lemma replay_app t rows evs1 evs2 :
  Pg.replay t rows (evs1 ++ evs2) = Pg.replay t (Pg.replay t rows evs1) evs2.
Proof. apply fold_left_app. Qed.

Lemma replay_extends t evs : forall rows,
  exists added, Pg.replay t rows evs = rows ++ added.
Proof.
  unfold Pg.replay. induction evs as [|ev evs IH]; intros rows; cbn [fold_left].
  - exists []. by rewrite app_nil_r.
  - destruct (IH (Pg.applyEvent t rows ev)) as [added ->].
    unfold Pg.applyEvent. destruct ev as [| | |t' [r|] [|]|]; eauto.
    destruct (String.eqb t' t); eauto.
    exists (r :: added). by rewrite <- app_assoc.
Qed.

Lemma split_app_cons {A} (l1 : list A) : forall l2 front x back,
  l1 ++ l2 = front ++ x :: back ->
  (exists mid, l1 = front ++ x :: mid /\ back = mid ++ l2)
  \/ (exists mid, front = l1 ++ mid /\ l2 = mid ++ x :: back).
Proof.
  induction l1 as [|y l1 IH]; intros l2 front x back Heq.
  - right. exists front. by cbn in *.
  - destruct front as [|p front]; cbn in Heq; injection Heq as -> Heq.
    + left. exists l1. by subst.
    + apply IH in Heq as [(mid & -> & ->)|(mid & -> & ->)]; [left|right]; eauto.
Qed.

Lemma clean_nil : clean [].
Proof. intros ev Hin. by apply elem_of_nil in Hin. Qed.

Lemma clean_app evs1 evs2 : clean evs1 -> clean evs2 -> clean (evs1 ++ evs2).
Proof. intros H1 H2 ev [?|?]%elem_of_app; auto. Qed.

Lemma clean_singleton ev :
  Pg.succeeded ev = true -> Pg.isEnd ev = false -> clean [ev].
Proof. intros Hs He ev' ->%list_elem_of_singleton. done. Qed.

Lemma visible_nil w : visible distance w [].
Proof. intros [|? ?] ? ? ? ? ? ? ? Heq; discriminate. Qed.

Lemma visible_app w w1 evs1 evs2 :
  (forall t, Pg.rowsOf w1 t = Pg.replay t (Pg.rowsOf w t) evs1) ->
  visible distance w evs1 -> visible distance w1 evs2 ->
  visible distance w (evs1 ++ evs2).
Proof.
  intros Hrows Hv1 Hv2 pre t conds k params rows post v Heq Hparam.
  apply split_app_cons in Heq as [(mid & -> & ->)|(mid & -> & ->)].
  - by eapply Hv1.
  - rewrite replay_app, <- Hrows. by eapply Hv2.
Qed.

Lemma visible_other w ev :
  (forall q result, ev <> Pg.Select q result) -> visible distance w [ev].
Proof.
  intros Hne [|? [|? ?]] ? ? ? ? ? ? ? Heq; try discriminate.
  injection Heq as ->. by edestruct Hne.
Qed.

Lemma traced_ret {A} (a : A) w : traced distance w (ret a w) [].
Proof.
  unfold traced. cbn. rewrite app_nil_r.
  repeat split; [apply visible_nil|left; apply clean_nil].
Qed.

Lemma traced_throw {A} e w : traced distance w (@throw _ A e w) [].
Proof.
  unfold traced. cbn. rewrite app_nil_r.
  repeat split; [apply visible_nil|left; apply clean_nil].
Qed.

Lemma traced_retype {A B} (r : outcome A) (r' : outcome B) w w1 evs :
  traced distance w (r, w1) evs ->
  (forall e, r = Throw e -> r' = Throw e) ->
  traced distance w (r', w1) evs.
Proof.
  intros (Hlog & Hrows & Hvis & Hshape)Hthrow.
  repeat split; try done.
  destruct Hshape as [?|(pre & ev & ? & ? & ? & ? & e & He)]; [by left|].
  right. exists pre, ev. do 4 (split; [done|]). exists e. by apply Hthrow.
Qed.

Lemma traced_bind {A B} (m : M Pg.World A) (k : A -> M Pg.World B) w evs1 :
  traced distance w (m w) evs1 ->
  (forall a w1, m w = (Ok a, w1) -> exists evs2, traced distance w1 (k a w1) evs2) ->
  exists evs, traced distance w (bind m k w) evs.
Proof.
  intros Hm Hk. unfold bind.
  destruct (m w) as [[a|e|] w1] eqn:Hmw;
    [|exists evs1; eapply traced_retype; [exact Hm|by intros ? [= ->]]
     |exists evs1; eapply traced_retype; [exact Hm|done]].
  destruct (Hk a w1 eq_refl) as [evs2 (Hlog2 & Hrows2 & Hvis2 & Hshape2)].
  destruct Hm as (Hlog1 & Hrows1 & Hvis1 & Hshape1). cbn [fst snd] in *.
  assert (Hclean1 : clean evs1).
  { destruct Hshape1 as [?|(? & ? & _ & _ & _ & _ & ? & ?)]; [done|discriminate]. }
  exists (evs1 ++ evs2). unfold traced. split; [|split; [|split]].
  - by rewrite Hlog2, Hlog1, <- app_assoc.
  - intros t. by rewrite Hrows2, Hrows1, replay_app.
  - by eapply visible_app.
  - destruct Hshape2 as [Hclean2|(pre & ev & -> & Hpre & Hfail & Hend & Hthrow)].
    + left. by apply clean_app.
    + right. exists (evs1 ++ pre), ev. rewrite <- app_assoc.
      split; [done|]. split; [by apply clean_app|done].
Qed.

Lemma rowsOf_same w w' t : Pg.tables w' = Pg.tables w -> Pg.rowsOf w' t = Pg.rowsOf w t.
Proof. unfold Pg.rowsOf. by intros ->. Qed.

Lemma nextFault_tables w :
  Pg.tables (snd (Pg.nextFault w)) = Pg.tables w
  /\ Pg.log (snd (Pg.nextFault w)) = Pg.log w.
Proof. unfold Pg.nextFault. by destruct (Pg.storeFaults w). Qed.

(** A call that only logs one event and leaves the tables alone. *)
Lemma traced_single {A} (res : outcome A * Pg.World) w ev :
  Pg.log (snd res) = Pg.log w ++ [ev] ->
  Pg.tables (snd res) = Pg.tables w ->
  (forall t' r, ev <> Pg.Insert t' (Some r) true) ->
  (forall q rows, ev <> Pg.Select q (Some rows)) ->
  Pg.isEnd ev = false ->
  (Pg.succeeded ev = false -> exists e, fst res = Throw e) ->
  traced distance w res [ev].
Proof.
  intros Hlog Htables Hinsert Hselect Hend Hfail.
  split; [done|]. split; [|split].
  - intros t. rewrite (rowsOf_same _ _ _ Htables). cbn.
    destruct ev as [| | |t' [r|] [|]|]; try done. by edestruct Hinsert.
  - intros [|? [|? ?]] ? ? ? ? ? ? ? Heq; try discriminate.
    injection Heq as ->. by edestruct Hselect.
  - destruct (Pg.succeeded ev) eqn:Hs.
    + left. by apply clean_singleton.
    + right. exists [], ev. split; [done|]. split; [apply clean_nil|auto].
Qed.

Lemma traced_connect s w :
  traced distance w (await (Pg.pg_connect s) w)
    [Pg.Connect (negb (fst (Pg.nextFault w)))].
Proof.
  pose proof (nextFault_tables w) as [Ht Hl].
  unfold await, Pg.pg_connect.
  destruct (Pg.nextFault w) as [[|] w1]; cbn [fst snd negb] in *;
    apply traced_single; cbn; rewrite ?Hl, ?Ht; try done; eauto.
Qed.

Lemma traced_run model texts w :
  exists ok, traced distance w (await (Pg.ai_run model texts) w)
               [Pg.Embed texts ok].
Proof.
  unfold await, Pg.ai_run.
  destruct (Pg.providerScript w) as [|[data|e] rest];
    eexists; apply traced_single; cbn; try done; eauto.
Qed.

Lemma pg_query_inv q w r w' :
  Pg.pg_query distance q w = (r, w') ->
  Pg.log w'
  = Pg.log w
    ++ [Pg.eventOf q (match r with Resolved rows => Some rows | Rejected _ => None end)]
  /\ match r with
     | Resolved rows => Pg.execute distance q (Pg.tables w) = Some (rows, Pg.tables w')
     | Rejected _ => Pg.tables w' = Pg.tables w
     end.
Proof.
  pose proof (nextFault_tables w) as [Ht Hl]. unfold Pg.pg_query.
  destruct (Pg.nextFault w) as [[|] w1]; cbn [fst snd] in *.
  - intros [= <- <-]. cbn. by rewrite Hl, Ht.
  - rewrite Ht. destruct (Pg.execute distance q (Pg.tables w)) as [[rows tbls]|].
    + intros [= <- <-]. cbn. by rewrite Hl.
    + intros [= <- <-]. cbn. by rewrite Hl, Ht.
Qed.

Lemma traced_select t conds k params w :
  let q := SimilarityQuery t conds k params in
  exists result, traced distance w (await (Pg.pg_query distance q) w)
                   [Pg.Select q result].
Proof.
  intros q. unfold await.
  destruct (Pg.pg_query distance q w) as [[rows|e] w1] eqn:Hq;
    apply pg_query_inv in Hq as [Hlog Hexec]; cbn [Pg.eventOf q] in Hlog.
  - exists (Some rows). cbn in Hexec.
    destruct (Pg.tables w !! t) as [stored|] eqn:Ht; [|done].
    destruct (Pg.param params k) as [[| |v]|] eqn:Hv; try done.
    destruct (Pg.conditionsWellFormed params conds); [|done].
    injection Hexec as <- Htables.
    split; [done|]. split; [|split].
    + intros t'. by rewrite (rowsOf_same _ _ _ (eq_sym Htables)).
    + intros [|? [|? ?]] ? ? ? ? ? ? ? Heq Hparam; try discriminate.
      injection Heq as <- <- <- <- <- <-. cbn.
      unfold Pg.rowsOf. rewrite Ht. cbn. congruence.
    + left. by apply clean_singleton.
  - exists None. apply traced_single; cbn; try done; eauto.
Qed.

Lemma rowsOf_insert w w' t rows r t' :
  Pg.tables w !! t = Some rows ->
  Pg.tables w' = <[t := rows ++ [r]]> (Pg.tables w) ->
  Pg.rowsOf w' t' = if String.eqb t t' then Pg.rowsOf w t' ++ [r] else Pg.rowsOf w t'.
Proof.
  intros Ht Htables. unfold Pg.rowsOf. rewrite Htables.
  destruct (String.eqb_spec t t') as [<-|Hne].
  - by rewrite lookup_insert_eq, Ht.
  - by rewrite lookup_insert_ne.
Qed.

Lemma traced_insert t values w :
  let q := InsertQuery t values in
  exists ok, traced distance w (await (Pg.pg_query distance q) w)
               [Pg.Insert t (Pg.recordOfValues values) ok].
Proof.
  intros q. unfold await.
  destruct (Pg.pg_query distance q w) as [[rows|e] w1] eqn:Hq;
    apply pg_query_inv in Hq as [Hlog Hexec]; cbn [Pg.eventOf q] in Hlog.
  - exists true. cbn in Hexec.
    destruct (Pg.tables w !! t) as [stored|] eqn:Ht; [|done].
    destruct (Pg.recordOfValues values) as [r|] eqn:Hr; [|done].
    injection Hexec as <- Htables.
    split; [done|]. split; [|split].
    + intros t'. cbn. symmetry in Htables.
      by rewrite (rowsOf_insert w w1 t stored r t' Ht Htables).
    + by apply visible_other.
    + left. by apply clean_singleton.
  - exists false. apply traced_single; cbn; try done; eauto.
Qed.

Local Abbreviation runtime := (Pg.runtime distance).

Lemma traced_processMessage batch fb embeddings j message st w :
  exists evs,
    traced distance w
      (processMessage (H := runtime) batch fb embeddings j message st w) evs.
Proof.
  unfold processMessage. destruct (embeddings !! j) as [e|].
  - destruct (traced_select (table_name batch)
                (whereConditions (buildConditions batch fb))
                (paramIndex (buildConditions batch fb))
                (queryParams (buildConditions batch fb) ++ [VVector e]) w)
      as [result Hsel].
    eapply traced_bind; [exact Hsel|]. intros rows w1 _.
    destruct (belowThreshold _ batch).
    + destruct (traced_insert (table_name batch)
                  [ VText (job_id batch); VText (message_id message);
                    VText (timestamp message); VText (topic batch);
                    VText (industry batch); VText (subindustry batch);
                    VText (content message); VVector e;
                    VNumber (similarityScoreOf rows);
                    VText (platform_name message);
                    VText (platform_user_id message);
                    VText (platform_message_id message);
                    VText (platform_message_url message) ] w1) as [ok Hins].
      eapply traced_bind; [exact Hins|]. intros ? w2 _.
      eexists. apply traced_ret.
    + eexists. apply traced_ret.
  - eexists. apply traced_throw.
Qed.

Lemma traced_processMessages batch fb embeddings rest : forall j st w,
  exists evs,
    traced distance w
      (processMessages (H := runtime) batch fb embeddings j rest st w) evs.
Proof.
  induction rest as [|message rest IH]; intros j st w; cbn [processMessages].
  - eexists. apply traced_ret.
  - destruct (traced_processMessage batch fb embeddings j message st w) as [evs1 H1].
    eapply traced_bind; [exact H1|]. intros st1 w1 _. apply IH.
Qed.

Lemma traced_embeddingBatches batch fb uniqueMessages fuel : forall i st w,
  exists evs,
    traced distance w
      (embeddingBatches (H := runtime) fuel batch fb uniqueMessages i st w) evs.
Proof.
  induction fuel as [|fuel IH]; intros i st w; cbn [embeddingBatches];
    (destruct (decide (i < length uniqueMessages)%nat);
     [|eexists; apply traced_ret]).
  - exists []. unfold traced. cbn. rewrite app_nil_r.
    split; [done|]. split; [done|]. split; [apply visible_nil|left; apply clean_nil].
  - destruct (traced_run "@cf/baai/bge-base-en-v1.5"
                (map content (slice i (i + embeddingBatchSize) uniqueMessages)) w)
      as [ok Hrun].
    eapply traced_bind; [exact Hrun|]. intros embeddings w1 _.
    destruct (traced_processMessages batch fb embeddings
                (slice i (i + embeddingBatchSize) uniqueMessages) 0 st w1)
      as [evs1 H1].
    eapply traced_bind; [exact H1|]. intros st1 w2 _. apply IH.
Qed.

Lemma traced_processBatchBody batch fb env w :
  exists evs,
    traced distance w (processBatchBody (H := runtime) batch fb env w) evs.
Proof.
  unfold processBatchBody.
  eapply traced_bind; [apply traced_connect|]. intros ? w1 _.
  destruct (traced_embeddingBatches batch fb
              (removeExactDuplicates (messages batch))
              (length (removeExactDuplicates (messages batch))) 0
              {| nonDuplicateMessages := [];
                 stats_dropped :=
                   Z.of_nat (length (messages batch))
                   - Z.of_nat (length (removeExactDuplicates (messages batch))) |}
              w1) as [evs1 H1].
  eapply traced_bind; [exact H1|]. intros st w2 _.
  eexists. apply traced_ret.
Qed.

(** Closing the connection logs one [End] event and leaves the tables. *)
Lemma pg_end_inv w :
  exists ok,
    Pg.log (snd (Pg.pg_end w)) = Pg.log w ++ [Pg.End ok]
    /\ Pg.tables (snd (Pg.pg_end w)) = Pg.tables w.
Proof.
  pose proof (nextFault_tables w) as [Ht Hl]. unfold Pg.pg_end.
  destruct (Pg.nextFault w) as [[|] w1]; cbn [fst snd] in *;
    eexists; cbn; by rewrite Hl, Ht.
Qed.

Lemma applyEvent_failed t rows ev :
  Pg.succeeded ev = false -> Pg.applyEvent t rows ev = rows.
Proof. by destruct ev as [| | |t' [r|] [|]|]. Qed.

(** C9: when a call to the provider or to the store fails during a batch
    (the event [ev] of the log), [processBatch] throws, so that [fetch]
    answers 500 without a batch payload; every call before the failed one
    had succeeded and the only call after it closes the connection (the
    failed call is not retried and nothing more is attempted); and every
    table holds exactly the rows it held when the call failed: the rows
    from before the batch followed by those the earlier inserts committed. *)
Theorem fail_fast batch fb env w pre ev post :
  let res := processBatch (H := runtime) batch fb env w in
  Pg.log (snd res) = Pg.log w ++ pre ++ ev :: post ->
  Pg.succeeded ev = false ->
  Pg.isEnd ev = false ->
  (exists e, fst res = Throw e)
  /\ (exists ok, post = [Pg.End ok])
  /\ clean pre
  /\ (forall t,
        Pg.rowsOf (snd res) t = Pg.replay t (Pg.rowsOf w t) pre
        /\ Pg.rowsOf w t `prefix_of` Pg.rowsOf (snd res) t)
  /\ (forall request,
        authenticated request env = true ->
        method request = "POST" ->
        json request = Some batch ->
        missingRequiredFields batch = false ->
        fb = resolveFilterBy batch ->
        fetch (H := runtime) request env w
        = (Ok (errorResponse 500 "Internal server error"), snd res)).
Proof.
  intros res Hlog Hfailed HnotEnd.
  assert (Hres : res = processBatch (H := runtime) batch fb env w) by done.
  rewrite processBatch_run in Hres.
  destruct (traced_processBatchBody batch fb env w)
    as [evs (Hlog1 & Hrows1 & _ & Hshape)].
  destruct (processBatchBody batch fb env w) as [r w1] eqn:Hbody.
  cbn [fst snd] in *.
  destruct (pg_end_inv w1) as [ok [HlogE HtablesE]].
  assert (Hsnd : snd res = snd (Pg.pg_end w1)) by by rewrite Hres.
  assert (Hfst : fst res = r) by by rewrite Hres.
  rewrite Hsnd, HlogE, Hlog1, <- app_assoc in Hlog.
  apply app_inv_head in Hlog.
  apply split_app_cons in Hlog as [(mid & Hevs & ->)|(mid & _ & Hend)]; cycle 1.
  { destruct mid as [|? [|? ?]]; try discriminate.
    injection Hend as <- _. discriminate. }
  destruct Hshape as [Hclean|(pre' & ev' & Hevs' & Hpre' & _ & _ & e & He)].
  { destruct (Hclean ev) as [Hs _]; [|congruence].
    rewrite Hevs, elem_of_app, elem_of_cons. auto. }
  rewrite Hevs' in Hevs.
  apply split_app_cons in Hevs as [(mid' & -> & _)|(mid' & -> & Hlast)].
  { destruct (Hpre' ev) as [Hs _]; [|congruence].
    rewrite elem_of_app, elem_of_cons. auto. }
  destruct mid' as [|? [|? ?]]; try discriminate.
  injection Hlast as <- <-. rewrite app_nil_r in *. cbn [app].
  assert (Hrows : forall t, Pg.rowsOf (snd res) t = Pg.replay t (Pg.rowsOf w t) pre').
  { intros t. rewrite Hsnd, (rowsOf_same _ _ _ HtablesE), Hrows1, Hevs', replay_app.
    cbn. by apply applyEvent_failed. }
  split; [exists e; congruence|]. split; [by exists ok|]. split; [done|].
  split.
  - intros t. split; [done|]. rewrite Hrows.
    destruct (replay_extends t pre' (Pg.rowsOf w t)) as [added ->].
    by apply prefix_app_r.
  - intros request Hauth Hmethod Hjson Hfields ->.
    apply (fetch_500 request batch env w e (snd res)); try done.
    rewrite processBatch_run, Hbody. cbn [fst snd]. by rewrite He, Hsnd.
Qed.

(** *** The nearest row *)

Lemma nearest_None v rows : Pg.nearest distance v rows = None -> rows = [].
Proof.
  destruct rows as [|r rest]; [done|]. cbn.
  destruct (Pg.nearest distance v rest); [|done].
  by destruct (Number.pg_leb _ _).
Qed.

Lemma nearest_closest v rows : forall r,
  Pg.nearest distance v rows = Some r ->
  forall r', r' ∈ rows ->
    Number.pg_leb (distance (Pg.r_embedding r) v)
                  (distance (Pg.r_embedding r') v) = true.
Proof.
  induction rows as [|r1 rest IH]; intros r Hnear r' Hin; [done|].
  cbn in Hnear. destruct (Pg.nearest distance v rest) as [r2|] eqn:Hrest.
  - specialize (IH r2 eq_refl).
    destruct (Number.pg_leb (distance (Pg.r_embedding r1) v) _) eqn:Hle;
      injection Hnear as <-; apply elem_of_cons in Hin as [->|Hin].
    + apply pg_leb_refl.
    + eapply pg_leb_trans; [exact Hle|by apply IH].
    + by apply pg_leb_total.
    + by apply IH.
  - apply nearest_None in Hrest as ->. injection Hnear as <-.
    apply elem_of_cons in Hin as [->|Hin]; [apply pg_leb_refl|].
    by apply elem_of_nil in Hin.
Qed.

(** A message that passes the threshold test is not a near-duplicate of any stored
    row within its neighbour search. *)
Lemma below_threshold_fresh batch fb e stored rA :
  let b := buildConditions batch fb in
  let params := queryParams b ++ [VVector e] in
  belowThreshold
    (similarityScoreOf (Pg.selectRows distance stored (whereConditions b) params e))
    batch = true ->
  rA ∈ stored ->
  matchesFilter batch fb rA ->
  nearDuplicate distance (similarity_search_score_threshold batch) e rA = false.
Proof.
  intros b params Hbelow Hin Hmatch.
  assert (HinF : rA ∈ filter (fun r => Pg.satisfies params (whereConditions b) r = true)
                        stored).
  { apply list_elem_of_filter. split; [|done]. by apply satisfies_matchesFilter. }
  unfold Pg.selectRows in Hbelow.
  destruct (Pg.nearest distance e _) as [r0|] eqn:Hnear.
  - unfold belowThreshold in Hbelow. cbn in Hbelow.
    unfold nearDuplicate, Pg.scoreOf in *.
    eapply farther_row_below_threshold; [|exact Hbelow].
    by eapply nearest_closest.
  - apply nearest_None in Hnear. rewrite Hnear in HinF.
    by apply elem_of_nil in HinF.
Qed.

Lemma recordFor_matchesFilter batch fb message e score :
  matchesFilter batch fb (recordFor batch message e score).
Proof.
  intros field (_ & Hin & _). unfold filterFields in Hin.
  rewrite !elem_of_cons, elem_of_nil in Hin.
  by destruct Hin as [->|[->|[->|[->|[]]]]].
Qed.

Lemma buildConditions_wellFormed batch fb e :
  let b := buildConditions batch fb in
  Pg.conditionsWellFormed (queryParams b ++ [VVector e]) (whereConditions b) = true.
Proof.
  cbn zeta. unfold Pg.conditionsWellFormed.
  apply forallb_forall. intros c Hc%list_elem_of_In.
  rewrite (condition_param batch fb e c Hc).
  destruct (proj1 (condition_fields batch fb (column c))) as (_ & Hin & _);
    [by exists c|].
  unfold filterFields in Hin. rewrite !elem_of_cons, elem_of_nil in Hin.
  by destruct Hin as [->|[->|[->|[->|[]]]]].
Qed.

(** *** One message against the reference store *)

Lemma pg_processMessage_Ok batch fb embeddings j message st w st' w' :
  processMessage (H := runtime) batch fb embeddings j message st w = (Ok st', w') ->
  let t := table_name batch in
  (exists e score,
      embeddings !! j = Some e
      /\ nonDuplicateMessages st' = nonDuplicateMessages st ++ [message]
      /\ Pg.rowsOf w' t = Pg.rowsOf w t ++ [recordFor batch message e score]
      /\ forall rA, rA ∈ Pg.rowsOf w t -> matchesFilter batch fb rA ->
           nearDuplicate distance (similarity_search_score_threshold batch) e rA
           = false)
  \/ (nonDuplicateMessages st' = nonDuplicateMessages st
      /\ Pg.rowsOf w' t = Pg.rowsOf w t).
Proof.
  unfold processMessage. destruct (embeddings !! j) as [e|]; [|discriminate].
  intros (rows & w1 & Hsel%await_Ok & Hk)%bind_Ok.
  set (t := table_name batch).
  apply pg_query_inv in Hsel as [_ Hexec]. cbn in Hexec. fold t in Hexec.
  destruct (Pg.tables w !! t) as [stored|] eqn:Ht; [|done].
  pose proof (similarityQuery_vector batch fb e) as Hvec.
  cbn zeta in Hvec. rewrite Hvec in Hexec.
  destruct (Pg.conditionsWellFormed _ _); [|done].
  injection Hexec as Hselected Htables. symmetry in Hselected.
  assert (Hrows : Pg.rowsOf w t = stored) by (unfold Pg.rowsOf; by rewrite Ht).
  destruct (belowThreshold _ batch) eqn:Hbelow.
  - apply bind_Ok in Hk as (? & w2 & Hins%await_Ok & Hret).
    injection Hret as <- <-. left.
    apply pg_query_inv in Hins as [_ Hexec]. cbn in Hexec. fold t in Hexec.
    rewrite <- Htables, Ht in Hexec. injection Hexec as _ Htables2.
    exists e, (similarityScoreOf rows). subst rows.
    split; [done|]. split; [done|]. split.
    + rewrite (rowsOf_insert w w2 t stored _ t Ht (eq_sym Htables2)).
      by rewrite String.eqb_refl.
    + intros rA HrA Hmatch. rewrite Hrows in HrA.
      by eapply below_threshold_fresh.
  - injection Hk as <- <-. right. split; [done|].
    by apply rowsOf_same.
Qed.

(** *** The loops against the reference store *)

Lemma freshRows_nil batch fb rows0 : freshRows distance batch fb rows0 [].
Proof. intros k rB Hk. by rewrite lookup_nil in Hk. Qed.

Lemma freshRows_app batch fb rows0 new1 new2 :
  freshRows distance batch fb rows0 new1 ->
  freshRows distance batch fb (rows0 ++ new1) new2 ->
  freshRows distance batch fb rows0 (new1 ++ new2).
Proof.
  intros H1 H2 k rB Hk.
  apply lookup_app_Some in Hk as [Hk|[Hge Hk]].
  - pose proof (lookup_lt_Some _ _ _ Hk) as Hlt.
    rewrite take_app_le by lia. by apply H1.
  - destruct (H2 _ _ Hk) as [Hmatch Hfresh]. split; [done|].
    rewrite take_app_ge by done. by rewrite app_assoc.
Qed.

Lemma freshRows_singleton batch fb rows0 message e score :
  (forall rA, rA ∈ rows0 -> matchesFilter batch fb rA ->
     nearDuplicate distance (similarity_search_score_threshold batch) e rA = false) ->
  freshRows distance batch fb rows0 [recordFor batch message e score].
Proof.
  intros Hfresh [|k] rB Hk; [|by destruct k].
  injection Hk as <-. split; [apply recordFor_matchesFilter|].
  cbn [take]. rewrite app_nil_r. exact Hfresh.
Qed.

Lemma pg_processMessages_Ok batch fb embeddings rest : forall j st w st' w',
  processMessages (H := runtime) batch fb embeddings j rest st w = (Ok st', w') ->
  exists kept new,
    nonDuplicateMessages st' = nonDuplicateMessages st ++ kept
    /\ Pg.rowsOf w' (table_name batch) = Pg.rowsOf w (table_name batch) ++ new
    /\ map projectRecord new = map projectMessage kept
    /\ freshRows distance batch fb (Pg.rowsOf w (table_name batch)) new.
Proof.
  induction rest as [|message rest IH]; intros j st w st' w' Hrun.
  - injection Hrun as <- <-. exists [], []. rewrite !app_nil_r.
    split; [done|]. split; [done|]. split; [done|]. apply freshRows_nil.
  - cbn [processMessages] in Hrun.
    apply bind_Ok in Hrun as (st1 & w1 & Hstep & Hrest).
    apply IH in Hrest as (kept & new & Hnd & Hrows & Hproj & Hfresh).
    apply pg_processMessage_Ok in Hstep
      as [(e & score & _ & Hnd1 & Hrows1 & Hfresh1)|[Hnd1 Hrows1]].
    + exists (message :: kept), (recordFor batch message e score :: new).
      rewrite Hnd, Hnd1, Hrows, Hrows1, <- !app_assoc. cbn [app map].
      split; [done|]. split; [done|]. split; [by rewrite Hproj|].
      apply (freshRows_app _ _ _ [_] new).
      * by apply freshRows_singleton.
      * by rewrite <- Hrows1.
    + exists kept, new. rewrite Hnd, Hnd1, Hrows, Hrows1.
      split; [done|]. split; [done|]. split; [done|]. by rewrite <- Hrows1.
Qed.

Lemma pg_run_rows model texts w data w' t :
  Pg.ai_run model texts w = (Resolved data, w') -> Pg.rowsOf w' t = Pg.rowsOf w t.
Proof.
  unfold Pg.ai_run. destruct (Pg.providerScript w) as [|r rest]; [discriminate|].
  intros [= -> <-]. by apply rowsOf_same.
Qed.

Lemma pg_connect_rows s w u w' t :
  Pg.pg_connect s w = (Resolved u, w') -> Pg.rowsOf w' t = Pg.rowsOf w t.
Proof.
  pose proof (nextFault_tables w) as [Ht _]. unfold Pg.pg_connect.
  destruct (Pg.nextFault w) as [[|] w1]; [discriminate|].
  intros [= _ <-]. by apply rowsOf_same.
Qed.

Lemma pg_embeddingBatches_Ok batch fb uniqueMessages fuel : forall i st w st' w',
  embeddingBatches (H := runtime) fuel batch fb uniqueMessages i st w = (Ok st', w') ->
  exists kept new,
    nonDuplicateMessages st' = nonDuplicateMessages st ++ kept
    /\ Pg.rowsOf w' (table_name batch) = Pg.rowsOf w (table_name batch) ++ new
    /\ map projectRecord new = map projectMessage kept
    /\ freshRows distance batch fb (Pg.rowsOf w (table_name batch)) new.
Proof.
  induction fuel as [|fuel IH]; intros i st w st' w' Hrun;
    cbn [embeddingBatches] in Hrun;
    (destruct (decide (i < length uniqueMessages)%nat);
     [|injection Hrun as <- <-; exists [], []; rewrite !app_nil_r;
       split; [done|]; split; [done|]; split; [done|]; apply freshRows_nil]).
  - discriminate.
  - apply bind_Ok in Hrun as (embeddings & w1 & Hai%await_Ok & Hrun).
    apply bind_Ok in Hrun as (st1 & w2 & Hbatch & Hrun).
    apply pg_processMessages_Ok in Hbatch as (kept1 & new1 & Hnd1 & Hrows1 & Hproj1 & Hfresh1).
    apply IH in Hrun as (kept2 & new2 & Hnd2 & Hrows2 & Hproj2 & Hfresh2).
    pose proof (pg_run_rows _ _ _ _ _ (table_name batch) Hai) as Hsame.
    rewrite Hsame in *.
    exists (kept1 ++ kept2), (new1 ++ new2).
    rewrite Hnd2, Hnd1, Hrows2, Hrows1, <- !app_assoc, !map_app, Hproj1, Hproj2.
    split; [done|]. split; [done|]. split; [done|].
    apply freshRows_app; [done|]. by rewrite <- Hrows1.
Qed.

(** C1: against a store that makes a committed insert visible to the next
    query, a completed batch has appended to its table one Stored Record per
    accepted message, in submission order; every answered similarity query
    of the batch returned the nearest matching row among the rows present
    before the batch followed by the rows of all inserts the batch had made
    until then; each new record, when it was inserted, was not a
    near-duplicate of any row within the neighbour search, the earlier
    records of the same batch included; so of two near-duplicates in one
    batch the later one is never accepted once the first is. *)
Theorem sequential_visibility batch fb env w resp w' :
  processBatch (H := runtime) batch fb env w = (Ok resp, w') ->
  let t := table_name batch in
  let threshold := similarity_search_score_threshold batch in
  exists new evs,
    Pg.rowsOf w' t = Pg.rowsOf w t ++ new
    /\ map projectRecord new = non_duplicate_messages (data resp)
    /\ Pg.log w' = Pg.log w ++ evs
    /\ visible distance w evs
    /\ freshRows distance batch fb (Pg.rowsOf w t) new
    /\ forall i j rA rB,
         (i < j)%nat -> new !! i = Some rA -> new !! j = Some rB ->
         nearDuplicate distance threshold (Pg.r_embedding rB) rA = false.
Proof.
  rewrite processBatch_run. intros Hrun t threshold.
  destruct (traced_processBatchBody batch fb env w)
    as [evs (Hlog1 & Hrows1 & Hvis & _)].
  destruct (processBatchBody batch fb env w) as [r w1] eqn:Hbody.
  cbn [fst snd] in *. injection Hrun as -> <-.
  destruct (pg_end_inv w1) as [ok [HlogE HtablesE]].
  unfold processBatchBody in Hbody.
  apply bind_Ok in Hbody as (? & w2 & Hconn%await_Ok & Hbody).
  apply bind_Ok in Hbody as (st & w3 & Hloop & Hret).
  injection Hret as <- <-.
  apply pg_embeddingBatches_Ok in Hloop as (kept & new & Hnd & Hrows & Hproj & Hfresh).
  pose proof (pg_connect_rows _ _ _ _ t Hconn) as Hsame.
  fold t in Hrows, Hfresh. rewrite Hsame in *. cbn [nonDuplicateMessages app] in Hnd.
  exists new, (evs ++ [Pg.End ok]).
  split; [by rewrite (rowsOf_same _ _ _ HtablesE)|].
  split; [cbn; by rewrite Hnd|].
  split; [by rewrite HlogE, Hlog1, <- app_assoc|].
  split; [|split; [done|]].
  - eapply visible_app; [exact Hrows1|exact Hvis|]. by apply visible_other.
  - intros i j rA rB Hij HrA HrB.
    destruct (Hfresh i rA HrA) as [HmatchA _].
    destruct (Hfresh j rB HrB) as [_ HfreshB].
    apply HfreshB; [|done]. apply elem_of_app. right.
    apply list_elem_of_lookup. exists i. by rewrite lookup_take_lt.
Qed.

End Traces.

(** ** The theorems at sample inputs *)

Lemma received_eq_inserted_plus_dropped_witness :
  Sample.runAAB = (Ok Sample.respAAB, snd Sample.runAAB)
  /\ received (stats (data Sample.respAAB))
     = inserted (stats (data Sample.respAAB))
       + dropped (stats (data Sample.respAAB)).
Proof.
  assert (Hrun : Sample.runAAB = (Ok Sample.respAAB, snd Sample.runAAB))
    by (vm_compute; reflexivity).
  split; [exact Hrun|].
  exact (proj1 (received_eq_inserted_plus_dropped (H := Sample.runtime)
                  Sample.batchAAB Sample.fb Sample.env
                  (Sample.world [] Sample.scriptAB []) Sample.respAAB
                  (snd Sample.runAAB) Hrun)).
Defined.

Lemma non_duplicate_messages_subsequence_witness :
  Sample.runAAB = (Ok Sample.respAAB, snd Sample.runAAB)
  /\ exists kept,
       kept `sublist_of` messages Sample.batchAAB
       /\ non_duplicate_messages (data Sample.respAAB) = map projectMessage kept
       /\ NoDup (map nd_content (non_duplicate_messages (data Sample.respAAB))).
Proof.
  assert (Hrun : Sample.runAAB = (Ok Sample.respAAB, snd Sample.runAAB))
    by (vm_compute; reflexivity).
  split; [exact Hrun|].
  exact (non_duplicate_messages_subsequence (H := Sample.runtime)
           Sample.batchAAB Sample.fb Sample.env
           (Sample.world [] Sample.scriptAB []) Sample.respAAB
           (snd Sample.runAAB) Hrun).
Defined.

Lemma exact_match_first_occurrence_witness :
  removeExactDuplicates (messages Sample.batchAAB)
  = [Sample.msg "msg_001" "A"; Sample.msg "msg_003" "B"]
  /\ filter (fun n => nd_content n = "A")
       (non_duplicate_messages (data Sample.respAAB))
     `sublist_of` [projectMessage (Sample.msg "msg_001" "A")].
Proof.
  assert (Hrun : Sample.runAAB = (Ok Sample.respAAB, snd Sample.runAAB))
    by (vm_compute; reflexivity).
  split; [vm_compute; reflexivity|].
  exact (proj2 (proj2 (proj2
           (exact_match_first_occurrence (H := Sample.runtime)
              Sample.batchAAB "A")))
           Sample.fb Sample.env (Sample.world [] Sample.scriptAB [])
           Sample.respAAB (snd Sample.runAAB) Hrun).
Defined.

(** C3 as stated fails: the batch [A; A] on a table that
    already holds a row with the embedding of [A] completes with neither of
    the two messages in the accepted output. *)
Lemma identical_pair_both_absent :
  exists resp,
    fst Sample.runAA = Ok resp
    /\ map content (messages Sample.batchAA) = ["A"; "A"]
    /\ non_duplicate_messages (data resp) = []
    /\ inserted (stats (data resp)) = 0
    /\ dropped (stats (data resp)) = 2.
Proof. eexists. vm_compute. repeat split. Qed.

Lemma insertion_rate_empty_batch_witness :
  messages Sample.batchEmpty = []
  /\ (exists resp,
        Sample.runEmpty = (Ok resp, snd Sample.runEmpty)
        /\ received (stats (data resp)) = 0
        /\ insertion_rate (stats (data resp)) = NaN).
Proof.
  split; [reflexivity|].
  exists (responseOf Sample.batchEmpty Sample.fb []).
  assert (Hrun : Sample.runEmpty
                 = (Ok (responseOf Sample.batchEmpty Sample.fb []),
                    snd Sample.runEmpty)) by (vm_compute; reflexivity).
  split; [exact Hrun|].
  exact (insertion_rate_empty_batch (H := Sample.runtime)
           Sample.batchEmpty Sample.fb Sample.env (Sample.world [] [] [])
           (responseOf Sample.batchEmpty Sample.fb []) (snd Sample.runEmpty)
           eq_refl Hrun).
Defined.

Lemma filter_by_resolution_witness :
  json (Sample.http Sample.batchAAB) = Some Sample.batchAAB
  /\ Sample.fetchAAB
     = (Ok {| response_status := 200; response_body := BatchBody Sample.respAAB |},
        snd Sample.fetchAAB)
  /\ data_filter_by (data Sample.respAAB) = resolveFilterBy Sample.batchAAB
  /\ resolveFilterBy Sample.batchAAB = ["topic"; "subindustry"].
Proof.
  assert (Hfetch : Sample.fetchAAB
            = (Ok {| response_status := 200;
                     response_body := BatchBody Sample.respAAB |},
               snd Sample.fetchAAB)) by (vm_compute; reflexivity).
  split; [reflexivity|]. split; [exact Hfetch|].
  destruct (filter_by_resolution (H := Sample.runtime)
              (Sample.http Sample.batchAAB) Sample.batchAAB Sample.env
              (Sample.world [] Sample.scriptAB []) Sample.respAAB
              (snd Sample.fetchAAB) eq_refl Hfetch) as (Hecho & Hdefault & _).
  split; [exact Hecho|]. exact (Hdefault eq_refl).
Defined.

(** C6 as stated fails: a request whose [filter_by] is the empty
    array resolves to the empty list, which the response echoes and from
    which no condition is built. *)
Lemma empty_filter_by_stays_empty :
  filter_by Sample.batchNoFilter = Some []
  /\ resolveFilterBy Sample.batchNoFilter = []
  /\ whereConditions
       (buildConditions Sample.batchNoFilter (resolveFilterBy Sample.batchNoFilter))
     = []
  /\ exists result,
       fst Sample.fetchNoFilter
       = Ok {| response_status := 200; response_body := BatchBody result |}
       /\ data_filter_by (data result) = [].
Proof.
  split; [reflexivity|]. split; [reflexivity|]. split; [reflexivity|].
  eexists. vm_compute. split; reflexivity.
Qed.

Lemma filter_predicate_fields_witness :
  similarityQuery Sample.batchAAB ["topic"; "subindustry"; "platform_name"]
    Sample.embA
  = SimilarityQuery "messages"
      [{| column := "topic"; placeholder := 1 |};
       {| column := "subindustry"; placeholder := 2 |}]
      3 [VText "cyberattack"; VText "blockchain"; VVector Sample.embA]
  /\ ((exists c,
         c ∈ whereConditions
               (buildConditions Sample.batchAAB
                  ["topic"; "subindustry"; "platform_name"])
         /\ column c = "industry")
      <-> fieldSelected Sample.batchAAB
            ["topic"; "subindustry"; "platform_name"] "industry").
Proof.
  destruct (filter_predicate_fields Sample.batchAAB
              ["topic"; "subindustry"; "platform_name"] Sample.embA)
    as (Hquery & _ & Hfields & _).
  split; [exact Hquery|]. exact (Hfields "industry").
Defined.

Lemma strict_less_than_decides_witness :
  [Sample.embNear] !! 0%nat = Some Sample.embNear
  /\ Sample.queryNear = (Resolved Sample.rowsNear, snd Sample.queryNear)
  /\ Number.eqb (similarityScoreOf Sample.rowsNear)
       (similarity_search_score_threshold Sample.batchNear) = true
  /\ processMessage (H := Sample.runtime) Sample.batchNear Sample.fb [Sample.embNear] 0
       (Sample.msg "msg_001" "almost A") Sample.st0 Sample.worldNear
     = (Ok (rejected Sample.st0), snd Sample.queryNear).
Proof.
  assert (Hq : Sample.queryNear = (Resolved Sample.rowsNear, snd Sample.queryNear))
    by (vm_compute; reflexivity).
  split; [reflexivity|]. split; [exact Hq|]. split; [reflexivity|].
  destruct (strict_less_than_decides (H := Sample.runtime) Sample.batchNear
              Sample.fb [Sample.embNear] 0 (Sample.msg "msg_001" "almost A")
              Sample.st0 Sample.worldNear Sample.embNear Sample.rowsNear
              (snd Sample.queryNear) eq_refl Hq) as (_ & _ & Hequal).
  exact (Hequal eq_refl).
Defined.

Lemma no_neighbour_scores_zero_witness :
  [Sample.embA] !! 0%nat = Some Sample.embA
  /\ Sample.queryEmpty = (Resolved [], snd Sample.queryEmpty)
  /\ Number.ltb (Fin 0) (similarity_search_score_threshold Sample.batchAAB) = true
  /\ processMessage (H := Sample.runtime) Sample.batchAAB Sample.fb [Sample.embA] 0
       (Sample.msg "msg_001" "A") Sample.st0 (Sample.world [] [] [])
     = acceptStep (H := Sample.runtime) Sample.batchAAB
         (Sample.msg "msg_001" "A") Sample.embA (Fin 0) Sample.st0
         (snd Sample.queryEmpty).
Proof.
  assert (Hq : Sample.queryEmpty = (Resolved [], snd Sample.queryEmpty))
    by (vm_compute; reflexivity).
  split; [reflexivity|]. split; [exact Hq|]. split; [reflexivity|].
  destruct (no_neighbour_scores_zero (H := Sample.runtime) Sample.batchAAB
              Sample.fb [Sample.embA] 0 (Sample.msg "msg_001" "A")
              Sample.st0 (Sample.world [] [] []) Sample.embA
              (snd Sample.queryEmpty) eq_refl Hq) as (_ & Haccept & _).
  exact (Haccept eq_refl).
Defined.

(** C8 as stated fails: with a threshold of 0 the only query of
    the batch finds no row, and the message is rejected. *)
Lemma no_neighbour_rejected_at_threshold_zero :
  similarity_search_score_threshold Sample.batchZero = Fin 0
  /\ Pg.log (snd Sample.runZero)
     = [ Pg.Connect true;
         Pg.Embed ["A"] true;
         Pg.Select (similarityQuery Sample.batchZero Sample.fb Sample.embA) (Some []);
         Pg.End true ]
  /\ exists resp,
       fst Sample.runZero = Ok resp
       /\ non_duplicate_messages (data resp) = []
       /\ inserted (stats (data resp)) = 0
       /\ dropped (stats (data resp)) = 1.
Proof.
  split; [reflexivity|]. split; [vm_compute; reflexivity|].
  eexists. vm_compute. repeat split.
Qed.

Lemma fail_fast_witness :
  Pg.log (snd Sample.runFault)
  = Pg.log (Sample.world [] Sample.scriptAB [false; false; false; true])
    ++ Sample.faultPre ++ Sample.faultEv :: [Pg.End true]
  /\ Pg.succeeded Sample.faultEv = false
  /\ Pg.isEnd Sample.faultEv = false
  /\ (exists e, fst Sample.runFault = Throw e)
  /\ Pg.rowsOf (snd Sample.runFault) "messages"
     = [recordFor Sample.batchAAB (Sample.msg "msg_001" "A") Sample.embA (Fin 0)].
Proof.
  assert (Hlog : Pg.log (snd Sample.runFault)
            = Pg.log (Sample.world [] Sample.scriptAB [false; false; false; true])
              ++ Sample.faultPre ++ Sample.faultEv :: [Pg.End true])
    by (vm_compute; reflexivity).
  split; [exact Hlog|]. split; [reflexivity|]. split; [reflexivity|].
  destruct (fail_fast Sample.cosineDistance Sample.batchAAB Sample.fb Sample.env
              (Sample.world [] Sample.scriptAB [false; false; false; true])
              Sample.faultPre Sample.faultEv [Pg.End true]
              Hlog eq_refl eq_refl) as (Hthrow & _ & _ & Hrows & _).
  split; [exact Hthrow|].
  exact (eq_trans (proj1 (Hrows "messages")) eq_refl).
Defined.

Lemma sequential_visibility_witness :
  Sample.runAAB = (Ok Sample.respAAB, snd Sample.runAAB)
  /\ exists new,
       Pg.rowsOf (snd Sample.runAAB) "messages" = new
       /\ map projectRecord new = non_duplicate_messages (data Sample.respAAB)
       /\ forall i j rA rB,
            (i < j)%nat -> new !! i = Some rA -> new !! j = Some rB ->
            nearDuplicate Sample.cosineDistance Sample.threshold09
              (Pg.r_embedding rB) rA = false.
Proof.
  assert (Hrun : Sample.runAAB = (Ok Sample.respAAB, snd Sample.runAAB))
    by (vm_compute; reflexivity).
  split; [exact Hrun|].
  destruct (sequential_visibility Sample.cosineDistance Sample.batchAAB Sample.fb
              Sample.env (Sample.world [] Sample.scriptAB [])
              Sample.respAAB (snd Sample.runAAB) Hrun)
    as (new & evs & Hrows & Hproj & _ & _ & _ & Hpair).
  exists new. split; [exact Hrows|]. split; [exact Hproj|exact Hpair].
Defined.
